(** * RealReview backend: image upload and metadata service

    A shallow embedding of [backend/crud.py], [backend/database.py],
    [backend/models.py], [backend/schemas.py] and [backend/main.py].

    Python [str] values are modelled by [string] (a sequence of bytes; the
    path functions used here only look at the ASCII characters '.' and
    '/', which never occur inside a multi-byte UTF-8 sequence), file
    contents by [list byte], Python integers by [Z], [Optional[str]] by
    [option string] and a [datetime] by the [Z] the database clock shows.
    The file system is a finite map from paths to contents, the table
    [image_metadata] a list of rows in the order the engine scans them.
    An exception is a result next to the state it leaves behind; what the
    code prints to the log is left out. *)

From Stdlib Require Import ZArith List Strings.String Strings.Ascii Strings.Byte Bool Lia.
From stdpp Require Import base gmap strings list sorting.

Local Open Scope string_scope.
Local Open Scope list_scope.
Local Open Scope Z_scope.

(** ** Python string primitives *)

Module PyStr.

(** [s[:n]] for [n >= 0]. *)
Fixpoint take (n : nat) (s : string) : string :=
  match n, s with
  | S n', String c s' => String c (take n' s')
  | _, _ => EmptyString
  end.

(** [s[n:]] for [n >= 0]. *)
Fixpoint drop (n : nat) (s : string) : string :=
  match n, s with
  | S n', String _ s' => drop n' s'
  | _, _ => s
  end.

(** [s[a:b]] for [0 <= a <= b]. *)
Definition slice (a b : nat) (s : string) : string :=
  take (b - a) (drop a s).

(** [c in s]. *)
Fixpoint contains (c : ascii) (s : string) : bool :=
  match s with
  | EmptyString => false
  | String a s' => Ascii.eqb a c || contains c s'
  end.

(** [s.rfind(c)] scanning a string whose first character has index [i]:
    the index of the last occurrence of [c], or [-1]. *)
Fixpoint rfind_from (i : Z) (c : ascii) (s : string) : Z :=
  match s with
  | EmptyString => -1
  | String a s' =>
      let r := rfind_from (i + 1) c s' in
      if 0 <=? r then r else if Ascii.eqb a c then i else -1
  end.

Definition rfind (c : ascii) (s : string) : Z := rfind_from 0 c s.

(** [s.startswith(c)] and [s.endswith(c)] for a one-character [c]. *)
Definition startswith (c : ascii) (s : string) : bool :=
  match s with
  | String a _ => Ascii.eqb a c
  | EmptyString => false
  end.

Fixpoint endswith (c : ascii) (s : string) : bool :=
  match s with
  | EmptyString => false
  | String a EmptyString => Ascii.eqb a c
  | String _ s' => endswith c s'
  end.

Definition bool_of (s : string) : bool :=
  match s with EmptyString => false | _ => true end.

End PyStr.

(** ** [os.path] (POSIX flavour) *)

Module OsPath.

Definition sep : ascii := "/"%char.
Definition altsep : option ascii := None.
Definition extsep : ascii := "."%char.

(** The [while filenameIndex < dotIndex] loop of [genericpath._splitext]:
    [true] when it reaches a character that is not [extsep] (the function
    then returns the split), [false] when the loop runs out.  [n] counts
    the iterations left, [dotIndex - filenameIndex]. *)
Fixpoint skip_leading_dots (n : nat) (p : string) (filenameIndex : Z) : bool :=
  match n with
  | O => false
  | S n' =>
      if negb (String.eqb
                 (PyStr.slice (Z.to_nat filenameIndex)
                              (Z.to_nat (filenameIndex + 1)) p)
                 (String extsep EmptyString))
      then true
      else skip_leading_dots n' p (filenameIndex + 1)
  end.

(** [genericpath._splitext(p, sep, altsep, extsep)]. *)
Definition _splitext (p : string) (sep : ascii) (altsep : option ascii)
    (extsep : ascii) : string * string :=
  let sepIndex := PyStr.rfind sep p in
  let sepIndex :=
    match altsep with
    | Some a => Z.max sepIndex (PyStr.rfind a p)
    | None => sepIndex
    end in
  let dotIndex := PyStr.rfind extsep p in
  if (sepIndex <? dotIndex)
     && skip_leading_dots (Z.to_nat (dotIndex - (sepIndex + 1))) p (sepIndex + 1)
  then (PyStr.take (Z.to_nat dotIndex) p, PyStr.drop (Z.to_nat dotIndex) p)
  else (p, PyStr.take 0 p).

(** [os.path.splitext(p)]. *)
Definition splitext (p : string) : string * string :=
  _splitext p sep altsep extsep.

(** [os.path.join(a, b)]. *)
Definition join (a b : string) : string :=
  if PyStr.startswith sep b then b
  else if negb (PyStr.bool_of a) || PyStr.endswith sep a then a +:+ b
  else a +:+ String sep b.

End OsPath.

(** ** [uuid] *)

Module Uuid.

(** [int.from_bytes(bs, byteorder="big")]. *)
Definition int_from_bytes (bs : list byte) : Z :=
  fold_left (fun acc b => acc * 256 + Z.of_N (Byte.to_N b)) bs 0.

Record UUID := { int : Z }.

(** [uuid.uuid4()] is [UUID(bytes=os.urandom(16), version=4)]; the
    constructor overwrites the variant and version bits. *)
Definition uuid4 (urandom16 : list byte) : UUID :=
  let i := int_from_bytes urandom16 in
  let i := Z.land i (Z.lnot (Z.shiftl 0xc000 48)) in
  let i := Z.lor i (Z.shiftl 0x8000 48) in
  let i := Z.land i (Z.lnot (Z.shiftl 0xf000 64)) in
  let i := Z.lor i (Z.shiftl 4 76) in
  {| int := i |}.

Definition hex_digit (d : Z) : ascii :=
  match d with
  | 0 => "0" | 1 => "1" | 2 => "2" | 3 => "3" | 4 => "4" | 5 => "5"
  | 6 => "6" | 7 => "7" | 8 => "8" | 9 => "9" | 10 => "a" | 11 => "b"
  | 12 => "c" | 13 => "d" | 14 => "e" | _ => "f"
  end%char.

(** ['%0<width>x' % n] for [0 <= n < 16 ^ width]. *)
Fixpoint hex_pad (width : nat) (n : Z) : string :=
  match width with
  | O => EmptyString
  | S w => hex_pad w (n / 16) +:+ String (hex_digit (n mod 16)) EmptyString
  end.

(** [UUID.hex]: ['%032x' % self.int]. *)
Definition hex (u : UUID) : string := hex_pad 32 (int u).

(** [UUID.__str__]. *)
Definition str (u : UUID) : string :=
  let x := hex u in
  PyStr.slice 0 8 x +:+ "-" +:+ PyStr.slice 8 12 x +:+ "-" +:+
  PyStr.slice 12 16 x +:+ "-" +:+ PyStr.slice 16 20 x +:+ "-" +:+ PyStr.drop 20 x.

End Uuid.

(** ** Data model *)

(** [models.ImageMetadata]: a row of the table [image_metadata], which is
    also what a loaded ORM instance carries. *)
Record ImageMetadata := {
  id : Z;
  filename : string;
  original_filename : string;
  uploader_name : option string;
  upload_timestamp : Z;
  location : option string }.

(** The instance [models.ImageMetadata(filename=..., ...)] before it is
    flushed: [id] and [upload_timestamp] are left to the database. *)
Record NewImageMetadata := {
  new_filename : string;
  new_original_filename : string;
  new_uploader_name : option string;
  new_location : option string }.

(** [schemas.ImageMetadataCreate]. *)
Record ImageMetadataCreate := {
  create_uploader_name : option string;
  create_location : option string }.

(** [schemas.ImageMetadataDisplay]. *)
Record ImageMetadataDisplay := {
  display_id : Z;
  display_filename : string;
  display_original_filename : string;
  display_uploader_name : option string;
  display_upload_timestamp : Z;
  display_location : option string }.

(** [Config.from_attributes = True]: the display shape is read off the
    attributes of the ORM instance. *)
Definition from_attributes (m : ImageMetadata) : ImageMetadataDisplay :=
  {| display_id := id m;
     display_filename := filename m;
     display_original_filename := original_filename m;
     display_uploader_name := uploader_name m;
     display_upload_timestamp := upload_timestamp m;
     display_location := location m |}.

(** [fastapi.UploadFile]: the client's file name and the spooled file
    with its read position. *)
Record UploadFile := {
  upload_filename : string;
  file : list byte;
  position : nat }.

Inductive exn :=
| OSError (strerror : string)
| IntegrityError (column : string)
| DataError
| ValueError (message : string)
| InvalidRequestError
| HTTPException (status_code : Z) (detail : string).

(** A database session is a handle into the table of open sessions. *)
Definition Session := nat.

(** The state the service works on: the upload directory, the table
    [image_metadata] with its [id] sequence, and the sessions that are
    open, each with the instances it has pending. *)
Record World := {
  fs : gmap string (list byte);
  table : list ImageMetadata;
  id_seq : Z;
  sessions : gmap nat (list NewImageMetadata);
  session_counter : nat }.

(** What the environment decides during one request: the bytes
    [os.urandom(16)] returns, whether [open] or the copy fails (the copy
    after [n] bytes), the database clock, and how an exception prints. *)
Record Env := {
  urandom16 : list byte;
  open_fault : option string;
  write_fault : option (nat * string);
  now : Z;
  exn_text : exn -> string }.

Definition set_fs (f : gmap string (list byte)) (w : World) : World :=
  {| fs := f; table := table w; id_seq := id_seq w;
     sessions := sessions w; session_counter := session_counter w |}.

Definition set_sessions (s : gmap nat (list NewImageMetadata)) (n : nat)
    (w : World) : World :=
  {| fs := fs w; table := table w; id_seq := id_seq w;
     sessions := s; session_counter := n |}.

Definition set_table (t : list ImageMetadata) (q : Z) (w : World) : World :=
  {| fs := fs w; table := t; id_seq := q;
     sessions := sessions w; session_counter := session_counter w |}.

(** ** Exceptions and state *)

Definition M (A : Type) : Type := World -> (exn + A) * World.

Definition ret {A} (a : A) : M A := fun w => (inr a, w).

Definition raise {A} (e : exn) : M A := fun w => (inl e, w).

Definition bind {A B} (c : M A) (k : A -> M B) : M B :=
  fun w =>
    match c w with
    | (inr a, w') => k a w'
    | (inl e, w') => (inl e, w')
    end.

(** [try: body / except Exception as e: handler e]. *)
Definition try_except {A} (body : M A) (handler : exn -> M A) : M A :=
  fun w =>
    match body w with
    | (inl e, w') => handler e w'
    | (inr a, w') => (inr a, w')
    end.

(** [try: body / finally: cleanup]. *)
Definition try_finally {A} (body : M A) (cleanup : M unit) : M A :=
  fun w =>
    let (r, w') := body w in
    match cleanup w' with
    | (inl e, w'') => (inl e, w'')
    | (inr _, w'') => (r, w'')
    end.

Notation "x <- c ;; k" := (bind c (fun x => k))
  (at level 100, c at next level, right associativity).
Notation "c ;;; k" := (bind c (fun _ => k))
  (at level 100, right associativity).

(** ** [database.py]: sessions *)

(** [SessionLocal()]: a new session with nothing pending. *)
Definition SessionLocal : M Session :=
  fun w =>
    let db := session_counter w in
    (inr db, set_sessions (<[db := []]> (sessions w)) (S db) w).

(** The instances added to [db] and not yet flushed. *)
Definition pending (db : Session) (w : World) : list NewImageMetadata :=
  default [] (sessions w !! db).

(** [db.close()]. *)
Definition Session_close (db : Session) : M unit :=
  fun w =>
    (inr tt, set_sessions (delete db (sessions w)) (session_counter w) w).

(** [db.add(instance)]. *)
Definition Session_add (db : Session) (instance : NewImageMetadata) : M unit :=
  fun w =>
    (inr tt,
     set_sessions (<[db := pending db w ++ [instance]]> (sessions w))
                  (session_counter w) w).

(** The row an INSERT writes for an instance: [id] from the sequence,
    [upload_timestamp] from [server_default=func.now()]. *)
Definition insert_row (now key : Z) (o : NewImageMetadata) : ImageMetadata :=
  {| id := key;
     filename := new_filename o;
     original_filename := new_original_filename o;
     uploader_name := new_uploader_name o;
     upload_timestamp := now;
     location := new_location o |}.

(** Whether a text holds the character NUL, which the database driver
    refuses to send. *)
Definition has_nul (s : string) : bool := PyStr.contains "000"%char s.

(** Whether one of the texts of an instance holds NUL. *)
Definition instance_has_nul (o : NewImageMetadata) : bool :=
  has_nul (new_filename o) || has_nul (new_original_filename o)
  || from_option has_nul false (new_uploader_name o)
  || from_option has_nul false (new_location o).

(** The INSERT statements of a flush, one per pending instance.  The
    driver raises [ValueError] for a text with NUL before anything is
    sent; then the constraints [models.py] declares apply: [id] takes
    the next value of the sequence and is the primary key, [filename] is
    unique, and [upload_timestamp] defaults to the clock of the server.
    The result is the keys written into the instances, or the first
    error; the sequence keeps every value it handed out, and is taken
    never to run out. *)
Fixpoint flush (now : Z) (instances : list NewImageMetadata)
    (t : list ImageMetadata) (seq : Z) : (exn + list Z) * list ImageMetadata * Z :=
  match instances with
  | [] => (inr [], t, seq)
  | o :: rest =>
      let key := seq + 1 in
      if instance_has_nul o then
        (inl (ValueError "A string literal cannot contain NUL (0x00) characters."),
         t, seq)
      else if existsb (fun r => id r =? key) t then
        (inl (IntegrityError "id"), t, key)
      else if existsb (fun r => String.eqb (filename r) (new_filename o)) t then
        (inl (IntegrityError "filename"), t, key)
      else
        match flush now rest (t ++ [insert_row now key o]) key with
        | (inr keys, t', seq') => (inr (key :: keys), t', seq')
        | (inl e, t', seq') => (inl e, t', seq')
        end
  end.

(** [db.commit()]: flush what is pending and commit; an error aborts
    the transaction, which leaves the table as it was. *)
Definition Session_commit (env : Env) (db : Session) : M (list Z) :=
  fun w =>
    match flush (now env) (pending db w) (table w) (id_seq w) with
    | (inr keys, t', seq') =>
        (inr keys,
         set_table t' seq'
           (set_sessions (<[db := []]> (sessions w)) (session_counter w) w))
    | (inl e, _, seq') => (inl e, set_table (table w) seq' w)
    end.

(** [.filter(models.ImageMetadata.id == key).first()]. *)
Definition select_by_id (key : Z) (t : list ImageMetadata) : option ImageMetadata :=
  List.find (fun r => id r =? key) t.

(** [db.refresh(instance)] for the instance whose primary key is [key]:
    its attributes are read back from its row. *)
Definition Session_refresh (db : Session) (key : Z) : M ImageMetadata :=
  fun w =>
    match select_by_id key (table w) with
    | Some r => (inr r, w)
    | None => (inl InvalidRequestError, w)
    end.

(** [db.query(models.ImageMetadata).offset(skip).limit(limit).all()];
    the engine rejects an OFFSET or LIMIT that is negative or does not
    fit its 64-bit integers. *)
Definition query_offset_limit (skip limit : Z) : M (list ImageMetadata) :=
  fun w =>
    if (skip <? 0) || (limit <? 0) || (2 ^ 63 <=? skip) || (2 ^ 63 <=? limit)
    then (inl DataError, w)
    else (inr (take (Z.to_nat limit) (drop (Z.to_nat skip) (table w))), w).

(** [get_db]: the dependency that yields a session to the endpoint and
    closes it in its [finally] block. *)
Definition get_db {A} (endpoint : Session -> M A) : M A :=
  db <- SessionLocal ;;
  try_finally (endpoint db) (Session_close db).

(** ** [crud.py] and [main.py] *)

Section Service.

(** [UPLOAD_DIR = os.getenv("UPLOAD_DIR", "./uploads")]. *)
Variable UPLOAD_DIR : string.

(** [open(file_path, "wb")]: the file is created or truncated. *)
Definition open_wb (env : Env) (file_path : string) : M unit :=
  fun w =>
    match open_fault env with
    | Some msg => (inl (OSError msg), w)
    | None => (inr tt, set_fs (<[file_path := []]> (fs w)) w)
    end.

(** [await upload_file.seek(offset)]. *)
Definition seek (upload_file : UploadFile) (offset : nat) : UploadFile :=
  {| upload_filename := upload_filename upload_file;
     file := file upload_file;
     position := offset |}.

(** [shutil.copyfileobj(upload_file.file, buffer)]: everything from the
    read position to the end goes to the open file. *)
Definition copyfileobj (env : Env) (fsrc : UploadFile) (file_path : string)
    : M unit :=
  fun w =>
    let data := drop (position fsrc) (file fsrc) in
    match write_fault env with
    | Some (n, msg) =>
        (inl (OSError msg), set_fs (<[file_path := take n data]> (fs w)) w)
    | None => (inr tt, set_fs (<[file_path := data]> (fs w)) w)
    end.

(** [os.path.splitext(upload_file.filename)[1]]. *)
Definition file_extension (upload_file : UploadFile) : string :=
  snd (OsPath.splitext (upload_filename upload_file)).

(** [f"{uuid.uuid4()}{file_extension}"]. *)
Definition unique_filename (env : Env) (upload_file : UploadFile) : string :=
  Uuid.str (Uuid.uuid4 (urandom16 env)) +:+ file_extension upload_file.

Definition save_image_file (env : Env) (upload_file : UploadFile) : M string :=
  let unique_filename := unique_filename env upload_file in
  let file_path := OsPath.join UPLOAD_DIR unique_filename in
  try_except
    (open_wb env file_path ;;;
     let upload_file := seek upload_file 0 in
     copyfileobj env upload_file file_path)
    (fun e => raise e) ;;;
  ret unique_filename.

Definition create_image_metadata (env : Env) (db : Session)
    (filename original_filename : string) (metadata : ImageMetadataCreate)
    : M ImageMetadata :=
  let db_metadata :=
    {| new_filename := filename;
       new_original_filename := original_filename;
       new_uploader_name := create_uploader_name metadata;
       new_location := create_location metadata |} in
  Session_add db db_metadata ;;;
  keys <- Session_commit env db ;;
  Session_refresh db (List.last keys 0).

Definition get_images_metadata (db : Session) (skip limit : Z)
    : M (list ImageMetadata) :=
  query_offset_limit skip limit.

Definition get_image_metadata (db : Session) (image_id : Z)
    : M (option ImageMetadata) :=
  fun w => (inr (select_by_id image_id (table w)), w).

Definition upload_image_and_metadata (env : Env) (upload_file : UploadFile)
    (uploader_name location : option string) (db : Session) : M ImageMetadata :=
  unique_filename <-
    try_except (save_image_file env upload_file)
      (fun e => raise (HTTPException 500
                         ("Failed to save image file: " +:+ exn_text env e))) ;;
  db_metadata <-
    try_except
      (let metadata_create :=
         {| create_uploader_name := uploader_name;
            create_location := location |} in
       create_image_metadata env db unique_filename
         (upload_filename upload_file) metadata_create)
      (fun e => raise (HTTPException 500
                         ("Failed to create image metadata: " +:+ exn_text env e))) ;;
  ret db_metadata.

Definition list_images_metadata (skip limit : Z) (db : Session)
    : M (list ImageMetadata) :=
  get_images_metadata db skip limit.

Definition get_image_metadata_by_id (image_id : Z) (db : Session)
    : M ImageMetadata :=
  db_image <- get_image_metadata db image_id ;;
  match db_image with
  | None => raise (HTTPException 404 "Image not found")
  | Some db_image => ret db_image
  end.

Definition read_root : M string := ret "Welcome to RealReview Backend MVP".

(** *** The routes *)

Inductive Request :=
| POST_upload (upload_file : UploadFile) (uploader_name location : option string)
| GET_images (skip limit : option Z)
| GET_image (image_id : Z)
| GET_root.

Inductive Body :=
| Record_body (record : ImageMetadataDisplay)
| List_body (records : list ImageMetadataDisplay)
| Detail_body (detail : string)
| Message_body (message : string).

Record Response := { status : Z; body : Body }.

(** The value an endpoint returns goes through its [response_model]; an
    [HTTPException] becomes a response with its status code, any other
    exception a 500. *)
Definition respond {A} (response_model : A -> Body) (r : exn + A) : Response :=
  match r with
  | inr a => {| status := 200; body := response_model a |}
  | inl (HTTPException status_code detail) =>
      {| status := status_code; body := Detail_body detail |}
  | inl _ => {| status := 500; body := Detail_body "Internal Server Error" |}
  end.

Definition app (env : Env) (request : Request) (w : World) : Response * World :=
  match request with
  | POST_upload upload_file uploader_name location =>
      let (r, w') :=
        get_db (upload_image_and_metadata env upload_file uploader_name location) w in
      (respond (fun m => Record_body (from_attributes m)) r, w')
  | GET_images skip limit =>
      let (r, w') :=
        get_db (list_images_metadata (default 0 skip) (default 100 limit)) w in
      (respond (fun l => List_body (from_attributes <$> l)) r, w')
  | GET_image image_id =>
      let (r, w') := get_db (get_image_metadata_by_id image_id) w in
      (respond (fun m => Record_body (from_attributes m)) r, w')
  | GET_root =>
      let (r, w') := read_root w in
      (respond Message_body r, w')
  end.

(** The service handling requests one after the other. *)
Fixpoint serve (requests : list (Env * Request)) (w : World)
    : list Response * World :=
  match requests with
  | [] => ([], w)
  | (env, request) :: rest =>
      let (response, w') := app env request w in
      let (responses, w'') := serve rest w' in
      (response :: responses, w'')
  end.

End Service.

(** ** Definitions used to state the properties *)

(** File names described by their parts rather than by indices. *)
Module ExtSpec.

(** The part of [s] from its last [c] on; empty when [s] has no [c]. *)
Fixpoint from_last (c : ascii) (s : string) : string :=
  match s with
  | EmptyString => EmptyString
  | String a s' =>
      if PyStr.contains c s' then from_last c s'
      else if Ascii.eqb a c then s else EmptyString
  end.

(** The part of [s] after its last [c]; all of [s] when it has no [c]. *)
Fixpoint after_last (c : ascii) (s : string) : string :=
  match s with
  | EmptyString => EmptyString
  | String a s' =>
      if PyStr.contains c s' then after_last c s'
      else if Ascii.eqb a c then s' else s
  end.

(** [s] without its leading [c]s. *)
Fixpoint lstrip (c : ascii) (s : string) : string :=
  match s with
  | EmptyString => EmptyString
  | String a s' => if Ascii.eqb a c then lstrip c s' else s
  end.

(** Whether [s] is made of [c]s only. *)
Fixpoint only (c : ascii) (s : string) : bool :=
  match s with
  | EmptyString => true
  | String a s' => Ascii.eqb a c && only c s'
  end.

(** The last dot-suffix of a name: from its last '.' to its end. *)
Definition last_dot_suffix (name : string) : string := from_last "." name.

(** The last dot-suffix of the final path component of a name, once the
    leading dots of that component are dropped. *)
Definition extension (name : string) : string :=
  from_last "." (lstrip "." (after_last "/" name)).

End ExtSpec.


(** The instance [create_image_metadata] builds from its arguments. *)
Definition new_instance (fn ofn : string) (metadata : ImageMetadataCreate)
    : NewImageMetadata :=
  {| new_filename := fn;
     new_original_filename := ofn;
     new_uploader_name := create_uploader_name metadata;
     new_location := create_location metadata |}.

(** The row [create_image_metadata] has inserted under [key]. *)
Definition inserted_row (env : Env) (key : Z) (fn ofn : string)
    (metadata : ImageMetadataCreate) : ImageMetadata :=
  insert_row (now env) key
    {| new_filename := fn;
       new_original_filename := ofn;
       new_uploader_name := create_uploader_name metadata;
       new_location := create_location metadata |}.

(** The constraints of the table, and the sequence ahead of every key. *)
Record wf (w : World) : Prop := {
  wf_ids : NoDup (id <$> (table w));
  wf_filenames : NoDup (filename <$> (table w));
  wf_seq : Forall (λ r, id r ≤ id_seq w) (table w) }.

(** The service before any request. *)
Definition empty_world : World :=
  {| fs := ∅; table := []; id_seq := 0; sessions := ∅; session_counter := 0 |}.

(** The world a request starts in once [get_db] has opened its session. *)
Definition opened (w : World) : World :=
  set_sessions (<[session_counter w := []]> (sessions w)) (S (session_counter w)) w.

(** How one request may change the table: not at all, or by one row
    appended under the next key of the sequence. *)
Inductive table_step (w w' : World) : Prop :=
| step_same :
    table w' = table w → id_seq w ≤ id_seq w' → table_step w w'
| step_insert row :
    table w' = table w ++ [row] →
    id row = id_seq w + 1 → id_seq w' = id_seq w + 1 →
    id row ∉ id <$> table w → filename row ∉ filename <$> table w →
    table_step w w'.

(** Whether a route depends on [get_db]. *)
Definition uses_db (request : Request) : bool :=
  match request with GET_root => false | _ => true end.

(** ** A sample run

    Three uploads into the empty service; the read position of each
    upload is at its end, as after the framework has read the file. *)

Definition sample_exn_text (e : exn) : string :=
  match e with
  | OSError strerror => strerror
  | IntegrityError column => "duplicate key value in column " +:+ column
  | DataError => "DataError"
  | ValueError message => message
  | InvalidRequestError => "InvalidRequestError"
  | HTTPException _ detail => detail
  end.

Definition sample_env (b : byte) (clock : Z) : Env :=
  {| urandom16 := repeat b 16;
     open_fault := None;
     write_fault := None;
     now := clock;
     exn_text := sample_exn_text |}.

Definition sample_upload (name : string) (data : list byte) : UploadFile :=
  {| upload_filename := name; file := data; position := length data |}.

Definition sample_requests : list (Env * Request) :=
  [ (sample_env x00 1000,
     POST_upload (sample_upload "cat.jpg" [x01; x02]) (Some "Ana") (Some "Lisbon"));
    (sample_env x01 1001,
     POST_upload (sample_upload "notes" [x03]) None None);
    (sample_env x02 1002,
     POST_upload (sample_upload "archive.tar.gz" []) (Some "Bo") None) ].

Definition sample_world : World :=
  snd (serve "./uploads" sample_requests empty_world).

(** The table the sample run leaves. *)
Definition sample_rows : list ImageMetadata :=
  [ {| id := 1; filename := "00000000-0000-4000-8000-000000000000.jpg";
       original_filename := "cat.jpg"; uploader_name := Some "Ana";
       upload_timestamp := 1000; location := Some "Lisbon" |};
    {| id := 2; filename := "01010101-0101-4101-8101-010101010101";
       original_filename := "notes"; uploader_name := None;
       upload_timestamp := 1001; location := None |};
    {| id := 3; filename := "02020202-0202-4202-8202-020202020202.gz";
       original_filename := "archive.tar.gz"; uploader_name := Some "Bo";
       upload_timestamp := 1002; location := None |} ].

(** The world a request leaves when its endpoint only read: the session
    it used is closed again. *)
Definition closed (w : World) : World :=
  set_sessions (delete (session_counter w) (sessions w)) (S (session_counter w)) w.

(** Every row names a file of the upload directory. *)
Definition rows_have_files (UPLOAD_DIR : string) (w : World) : Prop :=
  ∀ r, r ∈ table w → is_Some (fs w !! OsPath.join UPLOAD_DIR (filename r)).

(** The keys grow along the table and stay below the sequence. *)
Definition ids_ascending (w : World) : Prop :=
  StronglySorted Z.lt (id <$> table w) ∧ Forall (λ r, id r ≤ id_seq w) (table w).

(** The body of a response that lists records. *)
Definition listed (response : Response) : list ImageMetadataDisplay :=
  match body response with List_body records => records | _ => [] end.

(** Whether a request is an upload. *)
Definition uses_upload (request : Request) : bool :=
  match request with POST_upload _ _ _ => true | _ => false end.


(** The first request of the sample run. *)
Definition sample_first : Env * Request :=
  (sample_env x00 1000,
   POST_upload (sample_upload "cat.jpg" [x01; x02]) (Some "Ana") (Some "Lisbon")).

(** The display of the first row of the sample run. *)
Definition sample_first_display : ImageMetadataDisplay :=
  {| display_id := 1;
     display_filename := "00000000-0000-4000-8000-000000000000.jpg";
     display_original_filename := "cat.jpg";
     display_uploader_name := Some "Ana";
     display_upload_timestamp := 1000;
     display_location := Some "Lisbon" |}.

(** * Properties *)

(** ** Sample evaluations *)

Example splitext_cat : OsPath.splitext "cat.jpg" = ("cat", ".jpg").
Proof. reflexivity. Qed.
Example splitext_targz : OsPath.splitext "archive.tar.gz" = ("archive.tar", ".gz").
Proof. reflexivity. Qed.
Example splitext_hidden : OsPath.splitext ".gitignore" = (".gitignore", "").
Proof. reflexivity. Qed.
Example splitext_dir : OsPath.splitext "a.b/c" = ("a.b/c", "").
Proof. reflexivity. Qed.
Example splitext_dots : OsPath.splitext "x/..a.b" = ("x/..a", ".b").
Proof. reflexivity. Qed.
Example splitext_trail : OsPath.splitext "a." = ("a", ".").
Proof. reflexivity. Qed.
Example join_rel : OsPath.join "./uploads" "f.png" = "./uploads/f.png".
Proof. reflexivity. Qed.
Example join_slash : OsPath.join "/srv/up/" "f.png" = "/srv/up/f.png".
Proof. reflexivity. Qed.

Example uuid4_zero :
  Uuid.str (Uuid.uuid4 (repeat x00 16)) = "00000000-0000-4000-8000-000000000000".
Proof. vm_compute. reflexivity. Qed.
Example uuid4_ff :
  Uuid.str (Uuid.uuid4 (repeat xff 16)) = "ffffffff-ffff-4fff-bfff-ffffffffffff".
Proof. vm_compute. reflexivity. Qed.

(** ** Strings *)

Lemma append_nil_l (s : string) : "" +:+ s = s.
Proof. reflexivity. Qed.

Lemma append_cons (a : ascii) (s t : string) :
  String a s +:+ t = String a (s +:+ t).
Proof. reflexivity. Qed.

Ltac ssimpl := simpl; rewrite ?append_cons, ?append_nil_l; simpl.

Section StringFacts.
Implicit Types (s t : string) (c a : ascii).

Lemma append_nil_r s : s +:+ "" = s.
Proof. induction s as [|a s IH]; ssimpl; [done | by f_equal]. Qed.

Lemma append_assoc s t u : (s +:+ t) +:+ u = s +:+ (t +:+ u).
Proof. induction s as [|a s IH]; ssimpl; [done | by f_equal]. Qed.

Lemma length_append s t :
  String.length (s +:+ t) = (String.length s + String.length t)%nat.
Proof. induction s as [|a s IH]; ssimpl; [done | by f_equal]. Qed.

Lemma take_drop n s : PyStr.take n s +:+ PyStr.drop n s = s.
Proof.
  revert s; induction n as [|n IH]; intros [|a s]; ssimpl; try done.
  by rewrite IH.
Qed.

Lemma take_app_length s t : PyStr.take (String.length s) (s +:+ t) = s.
Proof. induction s as [|a s IH]; ssimpl; [by destruct t | by f_equal]. Qed.

Lemma drop_app_length s t : PyStr.drop (String.length s) (s +:+ t) = t.
Proof. induction s as [|a s IH]; ssimpl; [by destruct t | done]. Qed.

Lemma length_take n s :
  String.length (PyStr.take n s) = Nat.min n (String.length s).
Proof.
  revert s; induction n as [|n IH]; intros [|a s]; ssimpl; try done.
  by rewrite IH.
Qed.

Lemma length_drop n s :
  String.length (PyStr.drop n s) = (String.length s - n)%nat.
Proof.
  revert s; induction n as [|n IH]; intros [|a s]; ssimpl; try done.
Qed.


Lemma contains_append c s t :
  PyStr.contains c (s +:+ t) = PyStr.contains c s || PyStr.contains c t.
Proof.
  induction s as [|a s IH]; ssimpl; [done |].
  rewrite IH. by rewrite orb_assoc.
Qed.

(** Every string that contains [c] splits at the last occurrence. *)
Lemma contains_split_last c s :
  PyStr.contains c s = true →
  ∃ s1 s2, s = s1 +:+ String c s2 ∧ PyStr.contains c s2 = false.
Proof.
  induction s as [|a s IH]; simpl; [done |].
  destruct (PyStr.contains c s) eqn:Hs.
  - intros _. destruct IH as (s1 & s2 & -> & H2); [done |].
    by exists (String a s1), s2.
  - rewrite orb_false_r. intros Ha%Ascii.eqb_eq. subst a.
    by exists "", s.
Qed.

Lemma rfind_from_bounds i c s :
  PyStr.rfind_from i c s = -1 ∨
  i ≤ PyStr.rfind_from i c s < i + Z.of_nat (String.length s).
Proof.
  revert i; induction s as [|a s IH]; intros i; simpl; [by left |].
  destruct (IH (i + 1)) as [-> | H].
  - simpl. destruct (Ascii.eqb a c); [right; lia | by left].
  - destruct (Z.leb_spec 0 (PyStr.rfind_from (i + 1) c s)).
    + right; lia.
    + destruct (Ascii.eqb a c); [right; lia | by left].
Qed.

Lemma rfind_from_absent i c s :
  PyStr.contains c s = false → PyStr.rfind_from i c s = -1.
Proof.
  revert i; induction s as [|a s IH]; intros i; simpl; [done |].
  intros [Ha Hs]%orb_false_elim. by rewrite IH, Ha.
Qed.

Lemma rfind_from_last i c s1 s2 :
  0 ≤ i →
  PyStr.contains c s2 = false →
  PyStr.rfind_from i c (s1 +:+ String c s2) = i + Z.of_nat (String.length s1).
Proof.
  revert i; induction s1 as [|a s1 IH]; intros i Hi H2; ssimpl.
  - rewrite rfind_from_absent by done. simpl.
    rewrite Ascii.eqb_refl. lia.
  - rewrite IH by (done || lia).
    destruct (Z.leb_spec 0 (i + 1 + Z.of_nat (String.length s1))); lia.
Qed.

Lemma rfind_from_app_absent i c s t :
  PyStr.contains c t = false →
  PyStr.rfind_from i c (s +:+ t) = PyStr.rfind_from i c s.
Proof.
  revert i; induction s as [|a s IH]; intros i Ht; ssimpl.
  - rewrite rfind_from_absent; done.
  - by rewrite IH.
Qed.
End StringFacts.

Section ExtensionFacts.
Implicit Types (s t : string) (c a : ascii).

Lemma from_last_absent c s :
  PyStr.contains c s = false → ExtSpec.from_last c s = "".
Proof.
  induction s as [|a s IH]; simpl; [done |].
  intros [Ha Hs]%orb_false_elim. by rewrite Hs, Ha.
Qed.

Lemma from_last_split c s1 s2 :
  PyStr.contains c s2 = false →
  ExtSpec.from_last c (s1 +:+ String c s2) = String c s2.
Proof.
  intros H2. induction s1 as [|a s1 IH]; ssimpl.
  - by rewrite H2, Ascii.eqb_refl.
  - rewrite contains_append. simpl. rewrite Ascii.eqb_refl.
    by rewrite orb_true_r.
Qed.

Lemma after_last_absent c s :
  PyStr.contains c s = false → ExtSpec.after_last c s = s.
Proof.
  destruct s as [|a s]; simpl; [done |].
  intros [Ha Hs]%orb_false_elim. by rewrite Hs, Ha.
Qed.

Lemma after_last_split c s1 s2 :
  PyStr.contains c s2 = false →
  ExtSpec.after_last c (s1 +:+ String c s2) = s2.
Proof.
  intros H2. induction s1 as [|a s1 IH]; ssimpl.
  - by rewrite H2, Ascii.eqb_refl.
  - rewrite contains_append. simpl. rewrite Ascii.eqb_refl.
    by rewrite orb_true_r.
Qed.

Lemma lstrip_only c s t :
  ExtSpec.only c s = true → ExtSpec.lstrip c (s +:+ t) = ExtSpec.lstrip c t.
Proof.
  induction s as [|a s IH]; ssimpl; [done |].
  intros [Ha Hs]%andb_prop. by rewrite Ha, IH.
Qed.

Lemma lstrip_not_only c s t :
  ExtSpec.only c s = false →
  ∃ a s', ExtSpec.lstrip c (s +:+ t) = String a (s' +:+ t).
Proof.
  induction s as [|a s IH]; ssimpl; [done |].
  destruct (Ascii.eqb a c) eqn:Ha; simpl; [done |].
  intros _. by exists a, s.
Qed.

Lemma contains_lstrip d c s :
  PyStr.contains d s = false → PyStr.contains d (ExtSpec.lstrip c s) = false.
Proof.
  induction s as [|a s IH]; simpl; [done |].
  intros [Ha Hs]%orb_false_elim.
  destruct (Ascii.eqb a c); [by apply IH | simpl; by rewrite Ha, Hs].
Qed.

Lemma slice_one s a t :
  PyStr.slice (String.length s) (String.length s + 1) (s +:+ String a t)
  = String a "".
Proof.
  unfold PyStr.slice. rewrite drop_app_length.
  replace (String.length s + 1 - String.length s)%nat with 1%nat by lia.
  done.
Qed.

Lemma skip_leading_dots_only pre b rest :
  OsPath.skip_leading_dots (String.length b) (pre +:+ b +:+ rest)
    (Z.of_nat (String.length pre))
  = negb (ExtSpec.only OsPath.extsep b).
Proof.
  revert pre; induction b as [|a b IH]; intros pre; [done |].
  cbn [String.length OsPath.skip_leading_dots ExtSpec.only].
  rewrite append_cons.
  replace (Z.to_nat (Z.of_nat (String.length pre) + 1))
    with (String.length pre + 1)%nat by lia.
  rewrite Nat2Z.id, slice_one.
  destruct (Ascii.eqb_spec a OsPath.extsep) as [-> | Hne].
  - simpl negb at 1. cbn iota.
    specialize (IH (pre +:+ String OsPath.extsep "")).
    rewrite append_assoc, append_cons, append_nil_l in IH.
    rewrite length_append in IH. simpl String.length in IH.
    rewrite Nat2Z.inj_add in IH. apply IH.
  - replace (String a "" =? String OsPath.extsep "")%string with false; [done |].
    symmetry. apply String.eqb_neq. congruence.
Qed.

Theorem splitext_extension p :
  snd (OsPath.splitext p) = ExtSpec.extension p.
Proof.
  unfold OsPath.splitext, OsPath._splitext, OsPath.altsep, ExtSpec.extension.
  change "."%char with OsPath.extsep. change "/"%char with OsPath.sep.
  (* the final component *)
  assert (∃ pre base, p = pre +:+ base
            ∧ PyStr.contains OsPath.sep base = false
            ∧ PyStr.rfind OsPath.sep p + 1 = Z.of_nat (String.length pre)
            ∧ ExtSpec.after_last OsPath.sep p = base) as (pre & base & -> & Hb & Hsep & ->).
  { destruct (PyStr.contains OsPath.sep p) eqn:Hp.
    - destruct (contains_split_last _ _ Hp) as (d & base & -> & Hb).
      exists (d +:+ String OsPath.sep ""), base.
      rewrite append_assoc, append_cons, append_nil_l.
      split_and!; try done.
      + unfold PyStr.rfind. rewrite rfind_from_last by (done || lia).
        rewrite length_append. simpl. lia.
      + by apply after_last_split.
    - exists "", p. split_and!; try done.
      + unfold PyStr.rfind. by rewrite rfind_from_absent.
      + by apply after_last_absent. }
  set (sepIndex := PyStr.rfind OsPath.sep (pre +:+ base)) in *.
  destruct (PyStr.contains OsPath.extsep base) eqn:Hdot.
  - destruct (contains_split_last _ _ Hdot) as (b1 & b2 & -> & H2).
    assert (PyStr.rfind OsPath.extsep (pre +:+ b1 +:+ String OsPath.extsep b2)
            = Z.of_nat (String.length pre) + Z.of_nat (String.length b1)) as ->.
    { unfold PyStr.rfind. rewrite <- append_assoc.
      rewrite rfind_from_last by (done || lia).
      rewrite length_append. lia. }
    replace (sepIndex <? Z.of_nat (String.length pre) + Z.of_nat (String.length b1))
      with true by (symmetry; apply Z.ltb_lt; lia).
    replace (Z.to_nat (Z.of_nat (String.length pre) + Z.of_nat (String.length b1)
                       - (sepIndex + 1))) with (String.length b1) by lia.
    rewrite Hsep, skip_leading_dots_only. simpl andb.
    destruct (ExtSpec.only OsPath.extsep b1) eqn:Hb1; simpl negb; cbn iota.
    + cbn [snd PyStr.take]. rewrite lstrip_only by done.
      change (String OsPath.extsep b2) with ((String OsPath.extsep "") +:+ b2).
      rewrite lstrip_only by (simpl; done).
      symmetry. apply from_last_absent. by apply contains_lstrip.
    + cbn [snd].
      replace (Z.to_nat (Z.of_nat (String.length pre) + Z.of_nat (String.length b1)))
        with (String.length (pre +:+ b1)) by (rewrite length_append; lia).
      rewrite <- append_assoc, drop_app_length.
      destruct (lstrip_not_only _ _ (String OsPath.extsep b2) Hb1) as (a & s' & ->).
      rewrite <- append_cons. symmetry. by apply from_last_split.
  - assert ((sepIndex <? PyStr.rfind OsPath.extsep (pre +:+ base)) = false) as ->.
    { apply Z.ltb_ge. unfold PyStr.rfind.
      rewrite rfind_from_app_absent by done.
      destruct (rfind_from_bounds 0 OsPath.extsep pre); lia. }
    cbn [andb snd PyStr.take]. destruct (pre +:+ base); simpl.
    all: symmetry; apply from_last_absent; by apply contains_lstrip.
Qed.
End ExtensionFacts.

Section UuidFacts.
Implicit Types (s t : string) (c : ascii) (n m : Z) (u : Uuid.UUID).

Lemma contains_take c k s :
  PyStr.contains c s = false → PyStr.contains c (PyStr.take k s) = false.
Proof.
  revert s; induction k as [|k IH]; intros [|a s]; simpl; try done.
  intros [Ha Hs]%orb_false_elim. by rewrite Ha, IH.
Qed.

Lemma contains_drop c k s :
  PyStr.contains c s = false → PyStr.contains c (PyStr.drop k s) = false.
Proof.
  revert s; induction k as [|k IH]; intros [|a s]; simpl; try done.
  intros [Ha Hs]%orb_false_elim. by apply IH.
Qed.

Lemma drop_drop j k s : PyStr.drop j (PyStr.drop k s) = PyStr.drop (k + j) s.
Proof.
  revert s; induction k as [|k IH]; intros s; simpl; [done |].
  destruct s as [|a s]; [by destruct j | by apply IH].
Qed.

Lemma hex_digit_cases d :
  0 ≤ d < 16 →
  d = 0 ∨ d = 1 ∨ d = 2 ∨ d = 3 ∨ d = 4 ∨ d = 5 ∨ d = 6 ∨ d = 7 ∨
  d = 8 ∨ d = 9 ∨ d = 10 ∨ d = 11 ∨ d = 12 ∨ d = 13 ∨ d = 14 ∨ d = 15.
Proof. lia. Qed.


Lemma hex_digit_plain d :
  0 ≤ d < 16 →
  Ascii.eqb (Uuid.hex_digit d) "." = false ∧
  Ascii.eqb (Uuid.hex_digit d) "/" = false ∧
  Ascii.eqb (Uuid.hex_digit d) "-" = false.
Proof.
  intros H. pose proof (hex_digit_cases d H) as H'.
  repeat (destruct H' as [-> | H']; [done |]). by subst.
Qed.

Lemma length_hex_pad w n : String.length (Uuid.hex_pad w n) = w.
Proof.
  revert n; induction w as [|w IH]; intros n; simpl; [done |].
  rewrite length_append, IH. simpl. lia.
Qed.

Lemma contains_hex_pad c w n :
  c = "."%char ∨ c = "/"%char →
  PyStr.contains c (Uuid.hex_pad w n) = false.
Proof.
  intros Hc. revert n; induction w as [|w IH]; intros n; simpl; [done |].
  rewrite contains_append, IH. simpl.
  destruct (hex_digit_plain (n mod 16)) as (H1 & H2 & _).
  { apply Z.mod_pos_bound. lia. }
  destruct Hc as [-> | ->]; by rewrite ?H1, ?H2.
Qed.



Lemma length_slice a b s :
  (b ≤ String.length s)%nat → String.length (PyStr.slice a b s) = (b - a)%nat.
Proof.
  intros H. unfold PyStr.slice. rewrite length_take, length_drop. lia.
Qed.

Lemma length_str u : String.length (Uuid.str u) = 36%nat.
Proof.
  unfold Uuid.str. pose proof (length_hex_pad 32 (Uuid.int u)) as Hx.
  fold (Uuid.hex u) in Hx.
  rewrite !length_append, !length_slice, length_drop by lia.
  rewrite Hx. done.
Qed.

Lemma contains_str c u :
  c = "."%char ∨ c = "/"%char → PyStr.contains c (Uuid.str u) = false.
Proof.
  intros Hc. unfold Uuid.str, PyStr.slice.
  pose proof (contains_hex_pad c 32 (Uuid.int u) Hc) as Hx.
  fold (Uuid.hex u) in Hx.
  rewrite !contains_append.
  rewrite !contains_take, !contains_drop by (by apply contains_drop || done).
  destruct Hc as [-> | ->]; done.
Qed.






Lemma hex_digit_not_nul d :
  0 ≤ d < 16 → Ascii.eqb (Uuid.hex_digit d) "000" = false.
Proof.
  intros H. pose proof (hex_digit_cases d H) as H'.
  repeat (destruct H' as [-> | H']; [done |]). by subst.
Qed.

Lemma has_nul_hex_pad w n : has_nul (Uuid.hex_pad w n) = false.
Proof.
  unfold has_nul. revert n; induction w as [|w IH]; intros n; simpl; [done |].
  rewrite contains_append, IH. simpl.
  rewrite hex_digit_not_nul by (apply Z.mod_pos_bound; lia). done.
Qed.

(** The text of a UUID has no NUL. *)
Lemma has_nul_str u : has_nul (Uuid.str u) = false.
Proof.
  pose proof (has_nul_hex_pad 32 (Uuid.int u)) as Hx.
  unfold has_nul in *. fold (Uuid.hex u) in Hx.
  unfold Uuid.str, PyStr.slice. rewrite !contains_append.
  rewrite !contains_take, !contains_drop by (by apply contains_drop || done).
  done.
Qed.
End UuidFacts.

(** ** The table *)

Section TableFacts.
Implicit Types (t : list ImageMetadata) (r : ImageMetadata) (key : Z).

Lemma existsb_false {A} (f : A → bool) (l : list A) :
  existsb f l = false ↔ ∀ x, x ∈ l → f x = false.
Proof.
  induction l as [|a l IH]; simpl.
  - split; [intros _ x Hx; inversion Hx | done].
  - rewrite orb_false_iff, IH. split.
    + intros [Ha Hl] x [-> | Hx]%elem_of_cons; auto.
    + intros H. split; [apply H; left | intros x Hx; apply H; by right].
Qed.

Lemma id_taken_false key t :
  existsb (λ r, id r =? key) t = false ↔ key ∉ id <$> t.
Proof.
  rewrite existsb_false. split.
  - intros H (r & -> & Hr)%list_elem_of_fmap_1.
    specialize (H r Hr). lia.
  - intros H r Hr. apply Z.eqb_neq. intros <-. apply H.
    by apply list_elem_of_fmap_2.
Qed.

Lemma filename_taken_false name t :
  existsb (λ r, (filename r =? name)%string) t = false ↔ name ∉ filename <$> t.
Proof.
  rewrite existsb_false. split.
  - intros H (r & -> & Hr)%list_elem_of_fmap_1.
    specialize (H r Hr). by rewrite String.eqb_refl in H.
  - intros H r Hr. apply String.eqb_neq. intros <-. apply H.
    by apply list_elem_of_fmap_2.
Qed.

Lemma filename_taken_true name t :
  existsb (λ r, (filename r =? name)%string) t = true ↔ name ∈ filename <$> t.
Proof.
  destruct (existsb _ t) eqn:H.
  - split; [intros _ | done].
    destruct (decide (name ∈ filename <$> t)) as [|Hn]; [done |].
    apply filename_taken_false in Hn. congruence.
  - apply filename_taken_false in H. split; [done | intros; contradiction].
Qed.

Lemma select_by_id_None key t :
  select_by_id key t = None ↔ key ∉ id <$> t.
Proof.
  unfold select_by_id. induction t as [|r t IH]; simpl.
  - split; [intros _ H; inversion H | done].
  - destruct (Z.eqb_spec (id r) key) as [<- | Hne].
    + split; [done | intros H; exfalso; apply H; left].
    + rewrite IH, not_elem_of_cons. split; [intros H; split; [congruence | done] | by intros [_ H]].
Qed.

Lemma select_by_id_Some key t r :
  select_by_id key t = Some r → r ∈ t ∧ id r = key.
Proof.
  unfold select_by_id. induction t as [|r' t IH]; simpl; [done |].
  destruct (Z.eqb_spec (id r') key) as [<- | Hne].
  - intros [= ->]. split; [left | done].
  - intros [H1 H2]%IH. split; [by right | done].
Qed.

Lemma select_by_id_unique t r :
  NoDup (id <$> t) → r ∈ t → select_by_id (id r) t = Some r.
Proof.
  unfold select_by_id. induction t as [|r' t IH]; simpl.
  - intros _ H; inversion H.
  - intros [Hr' Ht]%NoDup_cons [-> | Hr]%elem_of_cons.
    + by rewrite Z.eqb_refl.
    + destruct (Z.eqb_spec (id r') (id r)) as [Heq | Hne]; [| by apply IH].
      exfalso. apply Hr'. rewrite Heq. by apply list_elem_of_fmap_2.
Qed.

Lemma select_by_id_app key t new r :
  select_by_id key t = Some r → select_by_id key (t ++ new) = Some r.
Proof.
  unfold select_by_id. induction t as [|r' t IH]; simpl; [done |].
  destruct (id r' =? key); [done | apply IH].
Qed.

Lemma select_by_id_last key t r :
  key ∉ id <$> t → id r = key → select_by_id key (t ++ [r]) = Some r.
Proof.
  unfold select_by_id. induction t as [|r' t IH]; simpl.
  - intros _ ->. by rewrite Z.eqb_refl.
  - intros [Hne Ht]%not_elem_of_cons Hr.
    destruct (Z.eqb_spec (id r') key); [done | by apply IH].
Qed.

(** A flush only appends rows, one per instance, and every key it
    hands back is the key of a row that is then in the table. *)
Lemma flush_ok now objs t seq keys t' seq' :
  flush now objs t seq = (inr keys, t', seq') →
  (∃ rows, t' = t ++ rows ∧ id <$> rows = keys) ∧
  length keys = length objs.
Proof.
  revert t seq keys t' seq'.
  induction objs as [|o objs IH]; intros t seq keys t' seq'; simpl.
  - intros [= <- <- <-]. split; [exists []; by rewrite app_nil_r | done].
  - destruct (instance_has_nul o); [done |].
    destruct (existsb _ t); [done |].
    destruct (existsb _ t); [done |].
    destruct (flush now objs _ _) as [[[e | ks] t1] seq1] eqn:Hf; [done |].
    intros [= <- <- <-].
    destruct (IH _ _ _ _ _ Hf) as [(rows & -> & Hk) Hlen].
    split; [| simpl; by rewrite Hlen].
    eexists (_ :: rows). split; [by rewrite <- app_assoc | by rewrite fmap_cons, Hk].
Qed.
(** The instance added last is flushed last: its row closes the table,
    under a key no earlier row has. *)
Lemma flush_last now objs o t seq keys t' seq' :
  flush now (objs ++ [o]) t seq = (inr keys, t', seq') →
  ∃ t0, t' = t0 ++ [insert_row now (List.last keys 0) o]
        ∧ List.last keys 0 ∉ id <$> t0.
Proof.
  revert t seq keys t' seq'.
  induction objs as [|o1 objs IH]; intros t seq keys t' seq'.
  - cbn [Datatypes.app flush].
    destruct (instance_has_nul o); [done |].
    destruct (existsb (λ r, id r =? seq + 1) t) eqn:Hid; [done |].
    destruct (existsb (λ r, String.eqb (filename r) (new_filename o)) t); [done |].
    intros [= <- <- <-]. exists t. split; [done |]. by apply id_taken_false.
  - rewrite <- app_comm_cons. cbn [flush].
    destruct (instance_has_nul o1); [done |].
    destruct (existsb (λ r, id r =? seq + 1) t); [done |].
    destruct (existsb (λ r, String.eqb (filename r) (new_filename o1)) t); [done |].
    destruct (flush now (objs ++ [o]) _ _) as [[[e | ks] t1] seq1] eqn:Hf; [done |].
    intros [= <- <- <-].
    destruct (flush_ok _ _ _ _ _ _ _ Hf) as [_ Hlen].
    destruct (IH _ _ _ _ _ Hf) as (t0 & -> & Hfresh).
    destruct ks as [|k ks]; [rewrite length_app in Hlen; cbn in Hlen; lia |].
    by exists t0.
Qed.
(** Within the range of the engine a query is the page. *)
Lemma query_offset_limit_page skip limit w :
  0 ≤ skip < 2 ^ 63 → 0 ≤ limit < 2 ^ 63 →
  query_offset_limit skip limit w
  = (inr (take (Z.to_nat limit) (drop (Z.to_nat skip) (table w))), w).
Proof.
  intros Hs Hl. unfold query_offset_limit.
  replace (skip <? 0) with false by (symmetry; apply Z.ltb_ge; lia).
  replace (limit <? 0) with false by (symmetry; apply Z.ltb_ge; lia).
  replace (2 ^ 63 <=? skip) with false by (symmetry; apply Z.leb_gt; lia).
  replace (2 ^ 63 <=? limit) with false by (symmetry; apply Z.leb_gt; lia).
  done.
Qed.

(** Outside of it the query raises. *)
Lemma query_offset_limit_out skip limit w :
  skip < 0 ∨ limit < 0 ∨ 2 ^ 63 ≤ skip ∨ 2 ^ 63 ≤ limit →
  query_offset_limit skip limit w = (inl DataError, w).
Proof.
  intros H. unfold query_offset_limit.
  replace ((skip <? 0) || (limit <? 0) || (2 ^ 63 <=? skip) || (2 ^ 63 <=? limit))
    with true; [done |].
  symmetry. rewrite !orb_true_iff, !Z.ltb_lt, !Z.leb_le. tauto.
Qed.
End TableFacts.

Section PathFacts.
Implicit Types (s t : string) (c d : ascii).

Lemma contains_from_last d c s :
  PyStr.contains d s = false → PyStr.contains d (ExtSpec.from_last c s) = false.
Proof.
  induction s as [|a s IH]; simpl; [done |].
  intros [Ha Hs]%orb_false_elim.
  destruct (PyStr.contains c s); [by apply IH |].
  destruct (Ascii.eqb a c); simpl; [by rewrite Ha, Hs | done].
Qed.

Lemma contains_after_last c s :
  PyStr.contains c (ExtSpec.after_last c s) = false.
Proof.
  induction s as [|a s IH]; simpl; [done |].
  destruct (PyStr.contains c s) eqn:Hs; [done |].
  destruct (Ascii.eqb a c) eqn:Ha; simpl; [done | by rewrite Ha, Hs].
Qed.

(** The extension never holds a path separator. *)
Lemma extension_no_sep p : PyStr.contains "/" (snd (OsPath.splitext p)) = false.
Proof.
  rewrite splitext_extension. unfold ExtSpec.extension.
  apply contains_from_last, contains_lstrip, contains_after_last.
Qed.


End PathFacts.

Section ServiceFacts.
Variable UPLOAD_DIR : string.


Lemma save_image_file_ok env uf w :
  open_fault env = None → write_fault env = None →
  save_image_file UPLOAD_DIR env uf w =
    (inr (unique_filename env uf),
     set_fs (<[OsPath.join UPLOAD_DIR (unique_filename env uf) := file uf]> (fs w)) w).
Proof.
  intros Ho Hw.
  unfold save_image_file, bind, try_except, open_wb, copyfileobj, ret.
  rewrite Ho, Hw. cbn. unfold set_fs. cbn. by rewrite insert_insert_eq.
Qed.

Lemma pending_set_fs db f w : pending db (set_fs f w) = pending db w.
Proof. done. Qed.

Lemma create_image_metadata_ok env db fn ofn md w :
  pending db w = [] →
  instance_has_nul (new_instance fn ofn md) = false →
  id_seq w + 1 ∉ id <$> table w →
  fn ∉ filename <$> table w →
  create_image_metadata env db fn ofn md w =
    (inr (inserted_row env (id_seq w + 1) fn ofn md),
     set_table (table w ++ [inserted_row env (id_seq w + 1) fn ofn md])
       (id_seq w + 1)
       (set_sessions (<[db := []]> (sessions w)) (session_counter w) w)).
Proof.
  intros Hp Hnul Hid%id_taken_false Hfn%filename_taken_false.
  unfold create_image_metadata, bind, Session_add, Session_commit, Session_refresh.
  fold (new_instance fn ofn md).
  rewrite Hp. unfold pending at 1. cbn [sessions set_sessions table id_seq].
  rewrite lookup_insert_eq. cbn [from_option Datatypes.id Datatypes.app flush].
  rewrite Hnul. cbn [new_filename new_instance].
  rewrite Hid, Hfn. cbn [List.last table set_table].
  fold (inserted_row env (id_seq w + 1) fn ofn md).
  rewrite select_by_id_last; [| by apply id_taken_false | done].
  unfold set_table, set_sessions. cbn. by rewrite insert_insert_eq.
Qed.

Lemma create_image_metadata_taken env db fn ofn md w :
  pending db w = [] →
  instance_has_nul (new_instance fn ofn md) = false →
  id_seq w + 1 ∉ id <$> table w →
  fn ∈ filename <$> table w →
  create_image_metadata env db fn ofn md w =
    (inl (IntegrityError "filename"),
     set_table (table w) (id_seq w + 1)
       (set_sessions (<[db := [new_instance fn ofn md]]> (sessions w))
          (session_counter w) w)).
Proof.
  intros Hp Hnul Hid%id_taken_false Hfn%filename_taken_true.
  unfold create_image_metadata, bind, Session_add, Session_commit.
  fold (new_instance fn ofn md).
  rewrite Hp. unfold pending at 1. cbn [sessions set_sessions table id_seq].
  rewrite lookup_insert_eq. cbn [from_option Datatypes.id Datatypes.app flush].
  rewrite Hnul. cbn [new_filename new_instance].
  by rewrite Hid, Hfn.
Qed.

Lemma create_image_metadata_nul env db fn ofn md w :
  pending db w = [] →
  instance_has_nul (new_instance fn ofn md) = true →
  create_image_metadata env db fn ofn md w =
    (inl (ValueError "A string literal cannot contain NUL (0x00) characters."),
     set_table (table w) (id_seq w)
       (set_sessions (<[db := [new_instance fn ofn md]]> (sessions w))
          (session_counter w) w)).
Proof.
  intros Hp Hnul.
  unfold create_image_metadata, bind, Session_add, Session_commit.
  fold (new_instance fn ofn md).
  rewrite Hp. unfold pending at 1. cbn [sessions set_sessions table id_seq].
  rewrite lookup_insert_eq. cbn [from_option Datatypes.id Datatypes.app flush].
  by rewrite Hnul.
Qed.

(** Whatever is pending, a failing [create_image_metadata] leaves the
    table and the files as they were. *)
Lemma create_image_metadata_fails env db fn ofn md w e w' :
  create_image_metadata env db fn ofn md w = (inl e, w') →
  table w' = table w ∧ fs w' = fs w.
Proof.
  unfold create_image_metadata, bind, Session_add, Session_commit, Session_refresh.
  cbn [table id_seq set_sessions].
  destruct (flush _ _ _ _) as [[[e' | keys] t'] seq'] eqn:Hf.
  - by intros [= <- <-].
  - destruct (flush_ok _ _ _ _ _ _ _ Hf) as [(rows & -> & Hk) Hlen].
    cbn [table set_table].
    destruct (select_by_id _ _) as [r |] eqn:Hs; [done |].
    exfalso. apply select_by_id_None in Hs. apply Hs.
    rewrite fmap_app, Hk. apply elem_of_app. right.
    unfold pending in Hlen. cbn in Hlen. rewrite lookup_insert_eq in Hlen.
    cbn in Hlen. rewrite length_app in Hlen. cbn in Hlen.
    destruct keys as [|k keys] using rev_ind; [cbn in Hlen; lia |].
    rewrite last_last. apply elem_of_app. right. left.
Qed.
End ServiceFacts.

Section HandlerFacts.
Variable UPLOAD_DIR : string.

Lemma pending_opened w : pending (session_counter w) (opened w) = [].
Proof. unfold pending, opened. cbn. by rewrite lookup_insert_eq. Qed.

Lemma get_db_run {A} (endpoint : Session → M A) w :
  get_db endpoint w =
    let (r, w') := endpoint (session_counter w) (opened w) in
    (r, set_sessions (delete (session_counter w) (sessions w')) (session_counter w') w').
Proof.
  unfold get_db, bind, SessionLocal, try_finally, Session_close. cbn.
  fold (opened w). by destruct (endpoint _ _).
Qed.

Lemma upload_image_and_metadata_ok env uf un loc db w :
  open_fault env = None → write_fault env = None →
  pending db w = [] →
  instance_has_nul
    (new_instance (unique_filename env uf) (upload_filename uf)
       {| create_uploader_name := un; create_location := loc |}) = false →
  id_seq w + 1 ∉ id <$> table w →
  unique_filename env uf ∉ filename <$> table w →
  let md := {| create_uploader_name := un; create_location := loc |} in
  let row := inserted_row env (id_seq w + 1) (unique_filename env uf)
               (upload_filename uf) md in
  upload_image_and_metadata UPLOAD_DIR env uf un loc db w =
    (inr row,
     set_table (table w ++ [row]) (id_seq w + 1)
       (set_sessions (<[db := []]> (sessions w)) (session_counter w)
          (set_fs (<[OsPath.join UPLOAD_DIR (unique_filename env uf) := file uf]>
                     (fs w)) w))).
Proof.
  intros Ho Hw Hp Hnul Hid Hfn md row.
  unfold upload_image_and_metadata, bind, try_except.
  rewrite save_image_file_ok by done.
  rewrite create_image_metadata_ok by done.
  done.
Qed.

Lemma upload_image_and_metadata_insert_fails env uf un loc db w name w1 e w2 :
  save_image_file UPLOAD_DIR env uf w = (inr name, w1) →
  create_image_metadata env db name (upload_filename uf)
    {| create_uploader_name := un; create_location := loc |} w1 = (inl e, w2) →
  upload_image_and_metadata UPLOAD_DIR env uf un loc db w =
    (inl (HTTPException 500 ("Failed to create image metadata: " +:+ exn_text env e)),
     w2).
Proof.
  intros Hs Hc. unfold upload_image_and_metadata, bind, try_except.
  by rewrite Hs, Hc.
Qed.

(** What [save_image_file] does to the world, whether it returns or
    raises: only the file at its path changes. *)
Lemma save_image_file_frame env uf w r w' :
  save_image_file UPLOAD_DIR env uf w = (r, w') →
  table w' = table w ∧ id_seq w' = id_seq w ∧ sessions w' = sessions w ∧
  session_counter w' = session_counter w ∧
  ∀ p, p ≠ OsPath.join UPLOAD_DIR (unique_filename env uf) → fs w' !! p = fs w !! p.
Proof.
  unfold save_image_file, bind, try_except, open_wb, copyfileobj, ret, raise.
  generalize (OsPath.join UPLOAD_DIR (unique_filename env uf)) as path.
  generalize (unique_filename env uf) as name. intros name path.
  destruct (open_fault env); [by intros [= <- <-] |].
  destruct (write_fault env) as [[n msg] |]; intros [= <- <-];
    unfold set_fs; cbn [table id_seq sessions session_counter fs];
    (split_and!; [reflexivity .. |]);
    intros p Hp; by rewrite !lookup_insert_ne.
Qed.

Lemma save_image_file_returns env uf w name w' :
  save_image_file UPLOAD_DIR env uf w = (inr name, w') →
  name = unique_filename env uf ∧
  fs w' = <[OsPath.join UPLOAD_DIR name := file uf]> (fs w).
Proof.
  unfold save_image_file, bind, try_except, open_wb, copyfileobj, ret, raise.
  generalize (unique_filename env uf) as name'. intros name'.
  destruct (open_fault env); [intros [=] |].
  destruct (write_fault env) as [[n msg] |]; [intros [=] |].
  intros [= <- <-]. unfold set_fs; cbn [fs position seek file].
  split; [reflexivity |]. rewrite insert_insert_eq. reflexivity.
Qed.
End HandlerFacts.

Section SaveImageFile.
Variable UPLOAD_DIR : string.


End SaveImageFile.

(** ** More on extensions *)

Section ExtensionCases.
Implicit Types (s t : string) (c d : ascii).

Lemma after_last_suffix c s : ∃ pre, s = pre +:+ ExtSpec.after_last c s.
Proof.
  induction s as [|a s [pre IH]]; simpl; [by exists "" |].
  destruct (PyStr.contains c s).
  - exists (String a pre). rewrite append_cons. by f_equal.
  - destruct (Ascii.eqb a c); [by exists (String a "") | by exists ""].
Qed.

Lemma lstrip_suffix c s : ∃ pre, s = pre +:+ ExtSpec.lstrip c s.
Proof.
  induction s as [|a s [pre IH]]; simpl; [by exists "" |].
  destruct (Ascii.eqb a c); [| by exists ""].
  exists (String a pre). rewrite append_cons. by f_equal.
Qed.

Lemma from_last_app c s t :
  PyStr.contains c t = true →
  ExtSpec.from_last c (s +:+ t) = ExtSpec.from_last c t.
Proof.
  intros Ht. induction s as [|a s IH]; [done |].
  rewrite append_cons. simpl. by rewrite contains_append, Ht, orb_true_r.
Qed.

Lemma extension_cases p :
  ExtSpec.extension p = "" ∨ ExtSpec.extension p = ExtSpec.last_dot_suffix p.
Proof.
  unfold ExtSpec.extension, ExtSpec.last_dot_suffix.
  destruct (after_last_suffix "/" p) as [pre Hp].
  destruct (lstrip_suffix "." (ExtSpec.after_last "/" p)) as [dots Hb].
  set (b := ExtSpec.lstrip "." (ExtSpec.after_last "/" p)) in *.
  assert (p = (pre +:+ dots) +:+ b) as Hp'
    by (rewrite append_assoc, <- Hb; exact Hp).
  clearbody b. clear Hp Hb.
  destruct (PyStr.contains "." b) eqn:Hc.
  - right. subst p. by rewrite from_last_app.
  - left. by apply from_last_absent.
Qed.

Lemma extension_absent p :
  PyStr.contains "." p = false → ExtSpec.extension p = "".
Proof.
  intros H. unfold ExtSpec.extension. apply from_last_absent.
  apply contains_lstrip.
  destruct (after_last_suffix "/" p) as [pre Hp].
  rewrite Hp, contains_append in H. by apply orb_false_elim in H as [_ H].
Qed.
End ExtensionCases.

Section Routes.
Variable UPLOAD_DIR : string.

(** C10 (amended): a file name without a dot gets the empty extension, and
    the stored name is then the bare UUID text, which has no dot; in
    general the stored extension is the last dot-suffix of the final path
    component of the name once its leading dots are dropped, so it is
    either empty or the last dot-suffix of the name, taken verbatim
    ("archive.tar.gz" gives ".gz"). *)
Theorem file_extension_spec uf :
  file_extension uf = ExtSpec.extension (upload_filename uf)
  ∧ (file_extension uf = ""
     ∨ file_extension uf = ExtSpec.last_dot_suffix (upload_filename uf))
  ∧ (PyStr.contains "." (upload_filename uf) = false →
     file_extension uf = ""
     ∧ ∀ env, unique_filename env uf = Uuid.str (Uuid.uuid4 (urandom16 env))
              ∧ PyStr.contains "." (unique_filename env uf) = false)
  ∧ (upload_filename uf = "archive.tar.gz" → file_extension uf = ".gz").
Proof.
  assert (file_extension uf = ExtSpec.extension (upload_filename uf)) as Hext
    by apply splitext_extension.
  split_and!; [done | | |].
  - rewrite Hext. apply extension_cases.
  - intros Hdot. assert (file_extension uf = "") as He
      by (rewrite Hext; by apply extension_absent).
    split; [done |]. intros env. unfold unique_filename. rewrite He.
    rewrite append_nil_r. split; [done |]. by apply contains_str; left.
  - intros Hn. unfold file_extension. by rewrite Hn.
Qed.

(** C2 (amended): for every state of the table and every N with
    1 <= N < 2^63, list(skip=0, limit=N) followed by list(skip=N, limit=N)
    is the first 2N rows of the table in its order, without repetition;
    it holds every row when the table has at most 2N rows, and leaves one
    out when it has more.  For N >= 2^63 both calls raise the data error
    of the engine. *)
Theorem two_pages db N w :
  1 ≤ N → wf w →
  (N < 2 ^ 63 →
   ∃ page1 page2,
     get_images_metadata db 0 N w = (inr page1, w)
     ∧ get_images_metadata db N N w = (inr page2, w)
     ∧ page1 ++ page2 = take (Z.to_nat (2 * N)) (table w)
     ∧ NoDup (page1 ++ page2)
     ∧ (Z.of_nat (length (table w)) ≤ 2 * N → page1 ++ page2 = table w)
     ∧ (2 * N < Z.of_nat (length (table w)) →
        ∃ r, r ∈ table w ∧ r ∉ page1 ++ page2))
  ∧ (2 ^ 63 ≤ N →
     get_images_metadata db 0 N w = (inl DataError, w)
     ∧ get_images_metadata db N N w = (inl DataError, w)).
Proof.
  intros HN [Hids _ _].
  assert (NoDup (table w)) as Hnd by (by eapply NoDup_fmap_1).
  unfold get_images_metadata. split.
  - intros Hmax. rewrite !query_offset_limit_page by lia.
    eexists _, _. split; [reflexivity |]. split; [reflexivity |].
    assert (take (Z.to_nat N) (drop (Z.to_nat 0) (table w))
            ++ take (Z.to_nat N) (drop (Z.to_nat N) (table w))
            = take (Z.to_nat (2 * N)) (table w)) as ->.
    { change (Z.to_nat 0) with 0%nat. rewrite drop_0, take_take_drop.
      f_equal. lia. }
    split_and!.
    + reflexivity.
    + eapply sublist_NoDup; [exact Hnd | apply sublist_take].
    + intros Hlen. apply take_ge. lia.
    + intros Hlen.
      destruct (lookup_lt_is_Some_2 (table w) (Z.to_nat (2 * N))) as [r Hr]; [lia |].
      exists r. split; [by eapply list_elem_of_lookup_2 |].
      intros [i [Hi Hlt]%lookup_take_Some]%list_elem_of_lookup.
      pose proof (proj1 (NoDup_alt (table w)) Hnd _ _ _ Hi Hr). lia.
  - intros Hbig. rewrite !query_offset_limit_out by lia. done.
Qed.

(** C3: GET /images/{id} answers 404 "Image not found" for an id that
    is the key of no row, and answers 200 with the row for an id that is
    the key of a row. *)
Theorem get_image_by_id env image_id w :
  wf w →
  (image_id ∉ id <$> table w →
   fst (app UPLOAD_DIR env (GET_image image_id) w)
   = {| status := 404; body := Detail_body "Image not found" |})
  ∧ (∀ r, r ∈ table w → id r = image_id →
     fst (app UPLOAD_DIR env (GET_image image_id) w)
     = {| status := 200; body := Record_body (from_attributes r) |}).
Proof.
  intros [Hids _ _].
  unfold app. rewrite get_db_run.
  unfold get_image_metadata_by_id, get_image_metadata, bind, ret, raise.
  cbn [table opened set_sessions]. split.
  - intros Hid%select_by_id_None. by rewrite Hid.
  - intros r Hr <-. by rewrite select_by_id_unique.
Qed.

Lemma pending_insert db l (m : gmap nat (list NewImageMetadata)) n w :
  pending db (set_sessions (<[db := l]> m) n w) = l.
Proof. unfold pending. cbn [sessions set_sessions]. by rewrite lookup_insert_eq. Qed.

(** What [create_image_metadata] returns is the row of its instance, and
    that row closes the table under a key no other row has. *)
Lemma create_image_metadata_returns env db fn ofn md w r w' :
  create_image_metadata env db fn ofn md w = (inr r, w') →
  ∃ t0 key,
    r = inserted_row env key fn ofn md
    ∧ table w' = t0 ++ [r] ∧ key ∉ id <$> t0.
Proof.
  unfold create_image_metadata, bind, Session_add, Session_commit, Session_refresh.
  rewrite pending_insert. cbn [table id_seq set_sessions].
  destruct (flush _ _ _ _) as [[[e | keys] t'] seq'] eqn:Hf; [done |].
  destruct (flush_last _ _ _ _ _ _ _ _ Hf) as (t0 & -> & Hfresh).
  cbn [table set_table]. rewrite select_by_id_last by done.
  intros [= <- <-]. exists t0, (List.last keys 0). done.
Qed.

(** C6 (amended): for texts without NUL, [create_image_metadata]
    appends a row with the next id of the sequence and the clock of the
    database and returns it, and when the file name is already that of a
    row it raises the uniqueness violation to its caller and the table is
    as before; for a text with NUL it raises the [ValueError] of the
    driver to its caller and the table is as before. *)
Theorem create_image_metadata_spec env db fn ofn md w :
  wf w → pending db w = [] →
  (instance_has_nul (new_instance fn ofn md) = false →
   (fn ∉ filename <$> table w →
    ∃ w', create_image_metadata env db fn ofn md w
          = (inr {| id := id_seq w + 1;
                    filename := fn;
                    original_filename := ofn;
                    uploader_name := create_uploader_name md;
                    upload_timestamp := now env;
                    location := create_location md |}, w')
          ∧ table w' = table w ++ [inserted_row env (id_seq w + 1) fn ofn md])
   ∧ (fn ∈ filename <$> table w →
      ∃ w', create_image_metadata env db fn ofn md w
            = (inl (IntegrityError "filename"), w')
            ∧ table w' = table w))
  ∧ (instance_has_nul (new_instance fn ofn md) = true →
     ∃ w', create_image_metadata env db fn ofn md w
           = (inl (ValueError
                     "A string literal cannot contain NUL (0x00) characters."),
              w')
           ∧ table w' = table w).
Proof.
  intros [_ _ Hseq] Hp.
  assert (id_seq w + 1 ∉ id <$> table w) as Hid.
  { intros (r & Hr & Hin)%list_elem_of_fmap_1.
    rewrite Forall_forall in Hseq. specialize (Hseq r Hin). lia. }
  split; [intros Hnul; split; intros Hfn | intros Hnul].
  - eexists. by rewrite create_image_metadata_ok.
  - eexists. by rewrite create_image_metadata_taken.
  - eexists. by rewrite create_image_metadata_nul.
Qed.

Lemma create_image_metadata_inv env db fn ofn md w res w' :
  pending db w = [] →
  create_image_metadata env db fn ofn md w = (res, w') →
  fs w' = fs w ∧ session_counter w' = session_counter w
  ∧ (∃ pend, sessions w' = <[db := pend]> (sessions w))
  ∧ id_seq w ≤ id_seq w' ≤ id_seq w + 1
  ∧ ((res = inr (inserted_row env (id_seq w + 1) fn ofn md)
      ∧ table w' = table w ++ [inserted_row env (id_seq w + 1) fn ofn md]
      ∧ id_seq w' = id_seq w + 1
      ∧ (id_seq w + 1 ∉ id <$> table w) ∧ (fn ∉ filename <$> table w))
     ∨ (∃ e, res = inl e ∧ table w' = table w)).
Proof.
  intros Hp.
  destruct (instance_has_nul (new_instance fn ofn md)) eqn:Hnul.
  { rewrite create_image_metadata_nul by done.
    intros [= <- <-]. cbn. split_and!; eauto; lia. }
  destruct (decide (id_seq w + 1 ∈ id <$> table w)) as [Hid | Hid].
  { unfold create_image_metadata, bind, Session_add, Session_commit.
    fold (new_instance fn ofn md).
    rewrite Hp. unfold pending at 1. cbn [sessions set_sessions table id_seq].
    rewrite lookup_insert_eq.
    cbn [from_option Datatypes.id Datatypes.app flush].
    rewrite Hnul.
    destruct (existsb _ _) eqn:He.
    - intros [= <- <-]. cbn. split_and!; eauto; lia.
    - apply id_taken_false in He. contradiction. }
  destruct (decide (fn ∈ filename <$> table w)) as [Hfn | Hfn].
  - rewrite create_image_metadata_taken by done.
    intros [= <- <-]. cbn. split_and!; eauto; lia.
  - rewrite create_image_metadata_ok by done.
    intros [= <- <-]. cbn. split_and!; eauto; try lia.
    left. by split_and!.
Qed.

Lemma pending_sessions db w w' :
  sessions w' = sessions w → pending db w' = pending db w.
Proof. unfold pending. by intros ->. Qed.

(** Every way the upload endpoint can end, from a session with nothing
    pending. *)
Lemma upload_image_and_metadata_inv env uf un loc db w res w' :
  pending db w = [] →
  upload_image_and_metadata UPLOAD_DIR env uf un loc db w = (res, w') →
  let row := inserted_row env (id_seq w + 1) (unique_filename env uf)
               (upload_filename uf)
               {| create_uploader_name := un; create_location := loc |} in
  session_counter w' = session_counter w
  ∧ (sessions w' = sessions w ∨ ∃ pend, sessions w' = <[db := pend]> (sessions w))
  ∧ ((∃ detail, res = inl (HTTPException 500 detail)
      ∧ table w' = table w ∧ id_seq w ≤ id_seq w' ≤ id_seq w + 1)
     ∨ (res = inr row ∧ table w' = table w ++ [row]
        ∧ id_seq w' = id_seq w + 1
        ∧ (id_seq w + 1 ∉ id <$> table w)
        ∧ (unique_filename env uf ∉ filename <$> table w)
        ∧ fs w' !! OsPath.join UPLOAD_DIR (unique_filename env uf)
          = Some (file uf))).
Proof.
  intros Hp. cbv zeta.
  unfold upload_image_and_metadata, bind, try_except, raise, ret.
  destruct (save_image_file UPLOAD_DIR env uf w) as [[e | name] w1] eqn:Hs.
  - cbv beta iota. intros [= <- <-].
    destruct (save_image_file_frame _ _ _ _ _ _ Hs) as (Ht & Hq & Hss & Hc & _).
    split_and!; [done | by left |]. left. eexists. split_and!; [done | done | lia | lia].
  - destruct (save_image_file_returns _ _ _ _ _ _ Hs) as [-> Hfs].
    destruct (save_image_file_frame _ _ _ _ _ _ Hs) as (Ht & Hq & Hss & Hc & _).
    generalize dependent (unique_filename env uf). intros name Hs Hfs.
    cbv beta iota.
    destruct (create_image_metadata env db name _ _ w1) as [res2 w2] eqn:Hcr.
    apply create_image_metadata_inv in Hcr as (Hfs2 & Hc2 & [pend Hss2] & Hq2 & Hres);
      [| by rewrite (pending_sessions _ _ _ Hss)].
    rewrite Ht, Hq in Hres. rewrite Hq in Hq2. rewrite Hss in Hss2.
    destruct Hres as [(-> & Ht2 & Hq3 & Hid & Hfn) | (e & -> & Ht2)];
      cbv beta iota; intros [= <- <-].
    + split_and!; [congruence | eauto |]. right.
      split_and!; try done.
      rewrite Hfs2, Hfs. apply lookup_insert_eq.
    + split_and!; [congruence | eauto |]. left.
      eexists. split_and!; [done | done | lia | lia].
Qed.

Lemma table_step_wf w w' : table_step w w' → wf w → wf w'.
Proof.
  intros Hstep [Hids Hfns Hseq]. destruct Hstep as [Ht Hq | row Ht Hid Hq Hfid Hffn].
  - split; rewrite Ht; [done | done |].
    eapply Forall_impl; [exact Hseq |]. intros r Hr. cbv beta in *. lia.
  - split; rewrite Ht.
    + rewrite fmap_app. apply NoDup_app. split_and!; [done | | apply NoDup_singleton].
      intros k Hk ->%list_elem_of_singleton. done.
    + rewrite fmap_app. apply NoDup_app. split_and!; [done | | apply NoDup_singleton].
      intros k Hk ->%list_elem_of_singleton. done.
    + apply Forall_app. split.
      * eapply Forall_impl; [exact Hseq |]. intros r Hr. cbv beta in *. lia.
      * apply Forall_singleton. lia.
Qed.

Lemma table_step_prefix w w' : table_step w w' → table w `prefix_of` table w'.
Proof.
  intros [-> _ | row -> _ _ _ _]; [done | by apply prefix_app_r].
Qed.

Lemma app_upload env uf un loc w :
  ∃ res w1,
    upload_image_and_metadata UPLOAD_DIR env uf un loc (session_counter w) (opened w)
    = (res, w1)
    ∧ app UPLOAD_DIR env (POST_upload uf un loc) w
      = (respond (λ m, Record_body (from_attributes m)) res,
         set_sessions (delete (session_counter w) (sessions w1))
           (session_counter w1) w1).
Proof.
  unfold app. rewrite get_db_run.
  destruct (upload_image_and_metadata _ _ _ _ _ _ _) as [res w1]. eauto.
Qed.

(** Every request is a step of the table. *)
Lemma app_table_step env request w :
  table_step w (snd (app UPLOAD_DIR env request w)).
Proof.
  destruct request as [uf un loc | skip limit | image_id |].
  - destruct (app_upload env uf un loc w) as (res & w1 & Hup & ->).
    apply upload_image_and_metadata_inv in Hup as (_ & _ & Hres);
      [| apply pending_opened].
    cbn [snd table id_seq set_sessions opened] in *.
    destruct Hres as [(d & _ & Ht & Hq) | (_ & Ht & Hq & Hid & Hfn & _)].
    + apply step_same; cbn [table id_seq set_sessions]; [done | lia].
    + eapply step_insert; cbn [table id_seq set_sessions]; [exact Ht | done ..].
  - unfold app. rewrite get_db_run.
    unfold list_images_metadata, get_images_metadata, query_offset_limit.
    destruct (_ || _); apply step_same; cbn; done || lia.
  - unfold app. rewrite get_db_run.
    unfold get_image_metadata_by_id, get_image_metadata, bind, ret, raise.
    destruct (select_by_id _ _); apply step_same; cbn; done || lia.
  - apply step_same; cbn; done || lia.
Qed.

Lemma app_wf env request w : wf w → wf (snd (app UPLOAD_DIR env request w)).
Proof. apply table_step_wf, app_table_step. Qed.

Lemma serve_cons env request rest w :
  snd (serve UPLOAD_DIR ((env, request) :: rest) w)
  = snd (serve UPLOAD_DIR rest (snd (app UPLOAD_DIR env request w))).
Proof.
  cbn [serve]. destruct (app _ _ _ _) as [response w1].
  cbn [snd]. by destruct (serve _ _ _).
Qed.

Lemma serve_wf requests w : wf w → wf (snd (serve UPLOAD_DIR requests w)).
Proof.
  revert w; induction requests as [|[env request] rest IH]; intros w Hw; [done |].
  rewrite serve_cons. by apply IH, app_wf.
Qed.

Lemma wf_empty : wf empty_world.
Proof. split; cbn; constructor. Qed.

(** C5: when the file was saved and the insert then fails, the upload
    route answers 500, the saved file is still there with the content of
    the upload (nothing deletes it), and the table has no new row. *)
Theorem upload_insert_failure env uf un loc w name w1 e w2 :
  save_image_file UPLOAD_DIR env uf (opened w) = (inr name, w1) →
  create_image_metadata env (session_counter w) name (upload_filename uf)
    {| create_uploader_name := un; create_location := loc |} w1 = (inl e, w2) →
  fst (app UPLOAD_DIR env (POST_upload uf un loc) w)
  = {| status := 500;
       body := Detail_body ("Failed to create image metadata: " +:+ exn_text env e) |}
  ∧ fs (snd (app UPLOAD_DIR env (POST_upload uf un loc) w))
      !! OsPath.join UPLOAD_DIR name = Some (file uf)
  ∧ fs (snd (app UPLOAD_DIR env (POST_upload uf un loc) w)) = fs w1
  ∧ table (snd (app UPLOAD_DIR env (POST_upload uf un loc) w)) = table w.
Proof.
  intros Hs Hc.
  destruct (app_upload env uf un loc w) as (res & w' & Hup & ->).
  rewrite (upload_image_and_metadata_insert_fails _ _ _ _ _ _ _ _ _ _ _ Hs Hc) in Hup.
  injection Hup as <- <-.
  destruct (save_image_file_returns _ _ _ _ _ _ Hs) as [_ Hfs].
  destruct (save_image_file_frame _ _ _ _ _ _ Hs) as (Ht & _).
  destruct (create_image_metadata_fails _ _ _ _ _ _ _ _ Hc) as [Ht2 Hfs2].
  cbn [fst snd respond fs table set_sessions].
  split_and!; [reflexivity | | done |].
  - rewrite Hfs2, Hfs. apply lookup_insert_eq.
  - by rewrite Ht2, Ht.
Qed.

(** C7: uploading "cat.jpg" with uploader "Ana" and location "Lisbon":
    the stored name is never "cat.jpg"; when the write goes through and
    the generated name is free the answer is 200 with the original file
    name, uploader and location as sent, the next id and the clock of the
    database; and every 200 answer to this upload has these fields. *)
Theorem upload_cat_jpg env data pos w :
  let upload := {| upload_filename := "cat.jpg"; file := data; position := pos |} in
  let name := Uuid.str (Uuid.uuid4 (urandom16 env)) +:+ ".jpg" in
  let response := fst (app UPLOAD_DIR env
                         (POST_upload upload (Some "Ana") (Some "Lisbon")) w) in
  name ≠ "cat.jpg"
  ∧ (wf w → open_fault env = None → write_fault env = None →
     name ∉ filename <$> table w →
     response
     = {| status := 200;
          body := Record_body
                    {| display_id := id_seq w + 1;
                       display_filename := name;
                       display_original_filename := "cat.jpg";
                       display_uploader_name := Some "Ana";
                       display_upload_timestamp := now env;
                       display_location := Some "Lisbon" |} |})
  ∧ (status response = 200 →
     ∃ d, body response = Record_body d
          ∧ display_original_filename d = "cat.jpg"
          ∧ display_uploader_name d = Some "Ana"
          ∧ display_location d = Some "Lisbon"
          ∧ display_id d = id_seq w + 1
          ∧ display_upload_timestamp d = now env
          ∧ display_filename d = name).
Proof.
  intros upload name response.
  assert (unique_filename env upload = name) as Hname by reflexivity.
  assert (name ≠ "cat.jpg") as Hne.
  { intros Heq. apply (f_equal String.length) in Heq.
    unfold name in Heq. rewrite length_append, length_str in Heq. done. }
  assert (instance_has_nul
            (new_instance (unique_filename env upload) (upload_filename upload)
               {| create_uploader_name := Some "Ana";
                  create_location := Some "Lisbon" |}) = false) as Hnul.
  { pose proof (has_nul_str (Uuid.uuid4 (urandom16 env))) as Hstr.
    unfold instance_has_nul, new_instance, unique_filename, has_nul in *.
    cbn [new_filename new_original_filename new_uploader_name new_location
         create_uploader_name create_location from_option].
    rewrite contains_append, Hstr. reflexivity. }
  clearbody name. subst response. split_and!; [done | |].
  - intros [_ _ Hseq] Ho Hw Hfn.
    unfold app. rewrite get_db_run.
    rewrite upload_image_and_metadata_ok;
      [| done | done | apply pending_opened | exact Hnul | | by rewrite Hname].
    + rewrite Hname. reflexivity.
    + intros (r & Hr & Hin)%list_elem_of_fmap_1.
      rewrite Forall_forall in Hseq. specialize (Hseq r Hin).
      cbn [id_seq opened set_sessions] in Hr. lia.
  - destruct (app_upload env upload (Some "Ana") (Some "Lisbon") w)
      as (res & w1 & Hup & ->).
    apply upload_image_and_metadata_inv in Hup as (_ & _ & Hres);
      [| apply pending_opened].
    rewrite Hname in Hres.
    cbn [fst table id_seq opened set_sessions] in *.
    destruct Hres as [(d & -> & _) | (-> & _)]; cbn [respond status body].
    + intros [=].
    + intros _. eexists. split; [reflexivity |]. by split_and!.
Qed.

Lemma serve_prefix requests w :
  table w `prefix_of` table (snd (serve UPLOAD_DIR requests w)).
Proof.
  revert w; induction requests as [|[env request] rest IH]; intros w; [done |].
  rewrite serve_cons. etrans; [| apply IH].
  apply table_step_prefix, app_table_step.
Qed.

(** C4: the record [create_image_metadata] returns is the record a
    following [get_image_metadata] finds under its id, right away and
    after any further requests, and its optional fields are the
    submitted ones: an absent field is [None] in the row and in the
    display shape, never a placeholder text. *)
Theorem create_then_get env db fn ofn md w r w' :
  create_image_metadata env db fn ofn md w = (inr r, w') →
  (∀ db', get_image_metadata db' (id r) w' = (inr (Some r), w'))
  ∧ (∀ requests db',
       fst (get_image_metadata db' (id r) (snd (serve UPLOAD_DIR requests w')))
       = inr (Some r))
  ∧ uploader_name r = create_uploader_name md
  ∧ location r = create_location md
  ∧ display_uploader_name (from_attributes r) = create_uploader_name md
  ∧ display_location (from_attributes r) = create_location md.
Proof.
  intros (t0 & key & Hr & Ht & Hfresh)%create_image_metadata_returns.
  assert (select_by_id (id r) (table w') = Some r) as Hsel.
  { rewrite Ht. apply select_by_id_last; by rewrite Hr. }
  split_and!; try (by rewrite Hr).
  - intros db'. unfold get_image_metadata. by rewrite Hsel.
  - intros requests db'. unfold get_image_metadata. cbn [fst].
    destruct (serve_prefix requests w') as [new ->].
    by rewrite (select_by_id_app _ _ _ _ Hsel).
Qed.

(** C8: whatever requests are served, the rows that were in the table
    stay where they were with every field as it was, and a lookup by id
    finds the same row; a GET leaves the table as it is, an upload leaves
    it as it is or appends one row. *)
Theorem records_immutable requests w :
  let w' := snd (serve UPLOAD_DIR requests w) in
  (∃ new, table w' = table w ++ new)
  ∧ (∀ i r, table w !! i = Some r → table w' !! i = Some r)
  ∧ (∀ r, select_by_id (id r) (table w) = Some r →
          select_by_id (id r) (table w') = Some r)
  ∧ (∀ env request,
       match request with
       | POST_upload _ _ _ => table_step w (snd (app UPLOAD_DIR env request w))
       | _ => table (snd (app UPLOAD_DIR env request w)) = table w
       end).
Proof.
  intros w'. pose proof (serve_prefix requests w) as [new Hnew].
  fold w' in Hnew. split_and!.
  - by exists new.
  - intros i r Hi. rewrite Hnew. by apply lookup_app_l_Some.
  - intros r Hr. rewrite Hnew. by apply select_by_id_app.
  - intros env [uf un loc | skip limit | image_id |].
    + apply app_table_step.
    + unfold app. rewrite get_db_run.
      unfold list_images_metadata, get_images_metadata, query_offset_limit.
      by destruct (_ || _).
    + unfold app. rewrite get_db_run.
      unfold get_image_metadata_by_id, get_image_metadata, bind, ret, raise.
      by destruct (select_by_id _ _).
    + done.
Qed.

Lemma serve_sessions requests w :
  sessions (snd (serve UPLOAD_DIR requests w)) ⊆ sessions w.
Proof.
  revert w; induction requests as [|[env request] rest IH]; intros w; [done |].
  rewrite serve_cons. etrans; [apply IH |].
  destruct request as [uf un loc | skip limit | image_id |].
  - destruct (app_upload env uf un loc w) as (res & w1 & Hup & ->).
    apply upload_image_and_metadata_inv in Hup as (_ & Hss & _);
      [| apply pending_opened].
    cbn [snd sessions set_sessions opened] in *.
    destruct Hss as [-> | [pend ->]]; rewrite ?delete_insert_eq;
      apply delete_subseteq.
  - unfold app. rewrite get_db_run.
    unfold list_images_metadata, get_images_metadata, query_offset_limit.
    destruct (_ || _); cbn [snd sessions set_sessions opened];
      rewrite delete_insert_eq; apply delete_subseteq.
  - unfold app. rewrite get_db_run.
    unfold get_image_metadata_by_id, get_image_metadata, bind, ret, raise.
    destruct (select_by_id _ _); cbn [snd sessions set_sessions opened];
      rewrite delete_insert_eq; apply delete_subseteq.
  - done.
Qed.

(** C9: after a request the session [get_db] opened for it is closed,
    whether the endpoint returned or raised: the sessions open afterwards
    are the ones open before without the one of this request, for any
    endpoint run under [get_db], and for any sequence of requests. *)
Theorem session_released env request w :
  let w' := snd (app UPLOAD_DIR env request w) in
  sessions w' = (if uses_db request
                 then delete (session_counter w) (sessions w)
                 else sessions w)
  ∧ sessions w' ⊆ sessions w
  ∧ (∀ A (endpoint : Session → M A),
       sessions (snd (get_db endpoint w)) !! session_counter w = None)
  ∧ (∀ requests, sessions (snd (serve UPLOAD_DIR requests w)) ⊆ sessions w).
Proof.
  intros w'. split_and!.
  - subst w'. destruct request as [uf un loc | skip limit | image_id |];
      cbn [uses_db].
    + destruct (app_upload env uf un loc w) as (res & w1 & Hup & ->).
      apply upload_image_and_metadata_inv in Hup as (_ & Hss & _);
        [| apply pending_opened].
      cbn [snd sessions set_sessions opened] in *.
      destruct Hss as [-> | [pend ->]]; by rewrite ?delete_insert_eq.
    + unfold app. rewrite get_db_run.
      unfold list_images_metadata, get_images_metadata, query_offset_limit.
      destruct (_ || _); cbn [snd sessions set_sessions opened];
        by rewrite delete_insert_eq.
    + unfold app. rewrite get_db_run.
      unfold get_image_metadata_by_id, get_image_metadata, bind, ret, raise.
      destruct (select_by_id _ _); cbn [snd sessions set_sessions opened];
        by rewrite delete_insert_eq.
    + done.
  - pose proof (serve_sessions [(env, request)] w) as H.
    rewrite serve_cons in H. exact H.
  - intros A endpoint. rewrite get_db_run.
    destruct (endpoint _ _) as [r w1]. cbn [snd sessions set_sessions].
    apply lookup_delete_eq.
  - intros requests. apply serve_sessions.
Qed.
End Routes.

(** ** The sample run: counterexamples and instances *)

Lemma sample_table : table sample_world = sample_rows.
Proof. vm_compute. reflexivity. Qed.

Lemma sample_wf : wf sample_world.
Proof. apply serve_wf, wf_empty. Qed.

Lemma sample_pending db : pending db sample_world = [].
Proof. unfold pending. assert (sessions sample_world = ∅) as -> by (vm_compute; reflexivity). done. Qed.


(** C2 does not hold as stated: with three rows and N = 1 the two
    pages hold the first two rows and the third is left out. *)
Lemma two_pages_omit_record :
  let third := {| id := 3; filename := "02020202-0202-4202-8202-020202020202.gz";
                  original_filename := "archive.tar.gz"; uploader_name := Some "Bo";
                  upload_timestamp := 1002; location := None |} in
  get_images_metadata 0%nat 0 1 sample_world = (inr (take 1 sample_rows), sample_world)
  ∧ get_images_metadata 0%nat 1 1 sample_world
    = (inr (take 1 (drop 1 sample_rows)), sample_world)
  ∧ third ∈ table sample_world
  ∧ third ∉ take 1 sample_rows ++ take 1 (drop 1 sample_rows).
Proof.
  intros third.
  unfold get_images_metadata, query_offset_limit. cbn [Z.ltb orb Z.compare].
  rewrite sample_table.
  split; [reflexivity |]. split; [reflexivity |]. split.
  - apply list_elem_of_lookup_2 with (i := 2%nat). reflexivity.
  - cbn. intros H. repeat (apply elem_of_cons in H as [[=] | H]). inversion H.
Qed.

(** C10 does not hold as stated: the extension of ".gitignore" and of
    "v1.2/readme" is empty, not the last dot-suffix of the name. *)
Lemma extension_not_last_dot_suffix :
  file_extension (sample_upload ".gitignore" []) = ""
  ∧ ExtSpec.last_dot_suffix ".gitignore" = ".gitignore"
  ∧ file_extension (sample_upload "v1.2/readme" []) = ""
  ∧ ExtSpec.last_dot_suffix "v1.2/readme" = ".2/readme".
Proof. vm_compute. done. Qed.

(** C6 does not hold as stated: for an original file name with NUL and
    a stored name that is free, nothing is inserted and the caller gets
    the [ValueError] of the driver. *)
Lemma create_image_metadata_nul_name :
  let env := sample_env x09 2000 in
  let md := {| create_uploader_name := None; create_location := None |} in
  let created :=
    create_image_metadata env 0%nat "fresh.png" (String "000" "cat.png") md
      sample_world in
  ("fresh.png" ∉ filename <$> table sample_world)
  ∧ fst created
    = inl (ValueError "A string literal cannot contain NUL (0x00) characters.")
  ∧ table (snd created) = table sample_world.
Proof.
  intros env md created. split.
  - rewrite sample_table. cbn. intros H.
    repeat (apply elem_of_cons in H as [[=] | H]). inversion H.
  - subst created. rewrite create_image_metadata_nul;
      [done | apply sample_pending | reflexivity].
Qed.


(** The upload named "notes" of the sample run. *)
Lemma file_extension_spec_witness :
  PyStr.contains "." (upload_filename (sample_upload "notes" [x03])) = false
  ∧ file_extension (sample_upload "notes" [x03]) = ""
  ∧ unique_filename (sample_env x01 1001) (sample_upload "notes" [x03])
    = Uuid.str (Uuid.uuid4 (urandom16 (sample_env x01 1001))).
Proof.
  split; [reflexivity |].
  destruct (file_extension_spec (sample_upload "notes" [x03])) as (_ & _ & Hnodot & _).
  destruct (Hnodot eq_refl) as [Hext Hname].
  split; [exact Hext | exact (proj1 (Hname (sample_env x01 1001)))].
Defined.

(** The two pages of one row each of the sample run. *)
Lemma two_pages_witness :
  1 ≤ 1 ∧ wf sample_world ∧ 1 < 2 ^ 63
  ∧ ∃ page1 page2,
      get_images_metadata 0%nat 0 1 sample_world = (inr page1, sample_world)
      ∧ get_images_metadata 0%nat 1 1 sample_world = (inr page2, sample_world)
      ∧ page1 ++ page2 = take 2 (table sample_world)
      ∧ NoDup (page1 ++ page2).
Proof.
  split; [lia |]. split; [exact sample_wf |]. split; [lia |].
  destruct (proj1 (two_pages 0%nat 1 sample_world ltac:(lia) sample_wf) ltac:(lia))
    as (page1 & page2 & H1 & H2 & H3 & H4 & _).
  exists page1, page2. split_and!; assumption.
Defined.

(** A lookup of id 7 after the sample run. *)
Lemma get_image_by_id_witness :
  wf sample_world
  ∧ (7 ∉ id <$> table sample_world)
  ∧ fst (app "./uploads" (sample_env x09 2000) (GET_image 7) sample_world)
    = {| status := 404; body := Detail_body "Image not found" |}.
Proof.
  split; [exact sample_wf |].
  assert (7 ∉ id <$> table sample_world) as Hid.
  { rewrite sample_table. cbn. intros H.
    repeat (apply elem_of_cons in H as [[=] | H]). inversion H. }
  split; [exact Hid |].
  exact (proj1 (get_image_by_id "./uploads" (sample_env x09 2000) 7 sample_world sample_wf) Hid).
Defined.

(** A fourth record created after the sample run and read back. *)
Lemma create_then_get_witness :
  let env := sample_env x09 2000 in
  let md := {| create_uploader_name := Some "Ana"; create_location := None |} in
  let r := {| id := 4; filename := "fresh.png"; original_filename := "cat.png";
              uploader_name := Some "Ana"; upload_timestamp := 2000;
              location := None |} in
  let w' := snd (create_image_metadata env 0%nat "fresh.png" "cat.png" md sample_world) in
  create_image_metadata env 0%nat "fresh.png" "cat.png" md sample_world = (inr r, w')
  ∧ get_image_metadata 0%nat 4 w' = (inr (Some r), w')
  ∧ uploader_name r = Some "Ana" ∧ location r = None.
Proof.
  intros env md r w'.
  assert (create_image_metadata env 0%nat "fresh.png" "cat.png" md sample_world
          = (inr r, w')) as Hc by (vm_compute; reflexivity).
  split; [exact Hc |].
  destruct (create_then_get "./uploads" env 0%nat "fresh.png" "cat.png" md
              sample_world r w' Hc) as (Hget & _ & Hu & Hl & _).
  split_and!; [apply Hget | exact Hu | exact Hl].
Defined.

(** A second record under the file name of the first row of the sample run. *)
Lemma create_image_metadata_spec_witness :
  let env := sample_env x09 2000 in
  let md := {| create_uploader_name := None; create_location := None |} in
  let taken := "00000000-0000-4000-8000-000000000000.jpg" in
  wf sample_world ∧ pending 0%nat sample_world = []
  ∧ instance_has_nul (new_instance taken "x.jpg" md) = false
  ∧ (taken ∈ filename <$> table sample_world)
  ∧ ∃ w', create_image_metadata env 0%nat taken "x.jpg" md sample_world
          = (inl (IntegrityError "filename"), w')
          ∧ table w' = table sample_world.
Proof.
  intros env md taken. split; [exact sample_wf |]. split; [apply sample_pending |].
  split; [reflexivity |].
  assert (taken ∈ filename <$> table sample_world) as Hin
    by (rewrite sample_table; apply list_elem_of_here).
  split; [exact Hin |].
  exact (proj2 (proj1 (create_image_metadata_spec env 0%nat taken "x.jpg" md
                         sample_world sample_wf (sample_pending 0%nat))
                  eq_refl) Hin).
Defined.

(** An upload after the sample run that draws the UUID of its first upload. *)
Lemma upload_insert_failure_witness :
  let env := sample_env x00 2000 in
  let upload := sample_upload "dog.jpg" [x07] in
  let md := {| create_uploader_name := None; create_location := None |} in
  let name := "00000000-0000-4000-8000-000000000000.jpg" in
  let w1 := snd (save_image_file "./uploads" env upload (opened sample_world)) in
  let w2 := snd (create_image_metadata env (session_counter sample_world) name
                   "dog.jpg" md w1) in
  save_image_file "./uploads" env upload (opened sample_world) = (inr name, w1)
  ∧ create_image_metadata env (session_counter sample_world) name "dog.jpg" md w1
    = (inl (IntegrityError "filename"), w2)
  ∧ fst (app "./uploads" env (POST_upload upload None None) sample_world)
    = {| status := 500;
         body := Detail_body
                   "Failed to create image metadata: duplicate key value in column filename" |}
  ∧ fs (snd (app "./uploads" env (POST_upload upload None None) sample_world))
      !! "./uploads/00000000-0000-4000-8000-000000000000.jpg" = Some [x07]
  ∧ table (snd (app "./uploads" env (POST_upload upload None None) sample_world))
    = table sample_world.
Proof.
  intros env upload md name w1 w2.
  assert (save_image_file "./uploads" env upload (opened sample_world) = (inr name, w1))
    as Hs by (vm_compute; reflexivity).
  assert (create_image_metadata env (session_counter sample_world) name "dog.jpg" md w1
          = (inl (IntegrityError "filename"), w2)) as Hc by (vm_compute; reflexivity).
  split; [exact Hs |]. split; [exact Hc |].
  destruct (upload_insert_failure "./uploads" env upload None None sample_world
              name w1 (IntegrityError "filename") w2 Hs Hc)
    as (Hresp & Hfile & _ & Htable).
  split_and!; [exact Hresp | exact Hfile | exact Htable].
Defined.

(** The upload of "cat.jpg" after the sample run. *)
Lemma upload_cat_jpg_witness :
  let env := sample_env x05 3000 in
  let name := "05050505-0505-4505-8505-050505050505.jpg" in
  wf sample_world ∧ open_fault env = None ∧ write_fault env = None
  ∧ (name ∉ filename <$> table sample_world)
  ∧ fst (app "./uploads" env
           (POST_upload {| upload_filename := "cat.jpg"; file := [x01]; position := 0 |}
              (Some "Ana") (Some "Lisbon")) sample_world)
    = {| status := 200;
         body := Record_body
                   {| display_id := id_seq sample_world + 1;
                      display_filename := name;
                      display_original_filename := "cat.jpg";
                      display_uploader_name := Some "Ana";
                      display_upload_timestamp := 3000;
                      display_location := Some "Lisbon" |} |}.
Proof.
  intros env name. split; [exact sample_wf |].
  split; [reflexivity |]. split; [reflexivity |].
  assert (name ∉ filename <$> table sample_world) as Hfresh.
  { rewrite sample_table. cbn. intros H.
    repeat (apply elem_of_cons in H as [[=] | H]). inversion H. }
  split; [exact Hfresh |].
  assert (Uuid.str (Uuid.uuid4 (urandom16 env)) +:+ ".jpg" = name) as Hname
    by (vm_compute; reflexivity).
  pose proof (proj1 (proj2 (upload_cat_jpg "./uploads" env [x01] 0%nat sample_world))) as H.
  cbv zeta in H. rewrite Hname in H. exact (H sample_wf eq_refl eq_refl Hfresh).
Defined.

(** ** Further properties of the routes *)

Section RouteOutcomes.
Variable UPLOAD_DIR : string.

Lemma app_GET_image env image_id w :
  app UPLOAD_DIR env (GET_image image_id) w
  = (match select_by_id image_id (table w) with
     | Some r => {| status := 200; body := Record_body (from_attributes r) |}
     | None => {| status := 404; body := Detail_body "Image not found" |}
     end, closed w).
Proof.
  unfold app. rewrite get_db_run.
  unfold get_image_metadata_by_id, get_image_metadata, bind, ret, raise.
  cbn [table opened set_sessions].
  destruct (select_by_id _ _); cbn [respond]; unfold closed, opened;
    cbn [sessions session_counter set_sessions]; by rewrite delete_insert_eq.
Qed.

Lemma app_GET_images env skip limit w :
  app UPLOAD_DIR env (GET_images skip limit) w
  = (respond (λ l, List_body (from_attributes <$> l))
       (fst (query_offset_limit (default 0 skip) (default 100 limit) w)),
     closed w).
Proof.
  unfold app. rewrite get_db_run.
  unfold list_images_metadata, get_images_metadata, query_offset_limit.
  cbn [table opened set_sessions].
  destruct (_ || _); cbn [fst respond]; unfold closed, opened;
    cbn [sessions session_counter set_sessions]; by rewrite delete_insert_eq.
Qed.

End RouteOutcomes.

Section Pages.

(** X8: pages that follow each other make up the longer page: as long
    as the offsets and limits stay below 2^63, the page of [a] records
    from [skip], followed by the page of [b] records from [skip + a], is
    the page of [a + b] records from [skip]. *)
Theorem pages_compose db skip a b w :
  0 ≤ skip → 0 ≤ a → 0 ≤ b → skip + a < 2 ^ 63 → a + b < 2 ^ 63 →
  ∃ page1 page2,
    get_images_metadata db skip a w = (inr page1, w)
    ∧ get_images_metadata db (skip + a) b w = (inr page2, w)
    ∧ get_images_metadata db skip (a + b) w = (inr (page1 ++ page2), w).
Proof.
  intros Hs Ha Hb Hsa Hab. unfold get_images_metadata.
  rewrite !query_offset_limit_page by lia.
  eexists _, _. split; [reflexivity |]. split; [reflexivity |].
  do 2 f_equal.
  replace (Z.to_nat (skip + a)) with (Z.to_nat skip + Z.to_nat a)%nat by lia.
  rewrite <- list.drop_drop, take_take_drop. f_equal. lia.
Qed.

(** X9: for [skip] and [limit] from 0 to below 2^63, a page holds the
    stored records from position [skip] on, in their order, as many as
    there are up to [limit]: it is empty when [skip] is past the end, and
    the whole table when [skip] is 0 and [limit] is at least the number of
    records. *)
Theorem page_contents db skip limit w :
  0 ≤ skip < 2 ^ 63 → 0 ≤ limit < 2 ^ 63 →
  ∃ page,
    get_images_metadata db skip limit w = (inr page, w)
    ∧ (∀ i, (i < Z.to_nat limit)%nat →
            page !! i = table w !! (Z.to_nat skip + i)%nat)
    ∧ Z.of_nat (length page)
      = Z.min limit (Z.max 0 (Z.of_nat (length (table w)) - skip))
    ∧ (Z.of_nat (length (table w)) ≤ skip → page = [])
    ∧ (skip = 0 → Z.of_nat (length (table w)) ≤ limit → page = table w).
Proof.
  intros Hs Hl. unfold get_images_metadata.
  rewrite query_offset_limit_page by lia.
  eexists. split; [reflexivity |]. split_and!.
  - intros i Hi. rewrite lookup_take. case_decide; [| lia]. apply lookup_drop.
  - rewrite list.length_take, list.length_drop. lia.
  - intros Hlen. rewrite drop_ge by lia. by rewrite take_nil.
  - intros -> Hlen. change (Z.to_nat 0) with 0%nat. rewrite drop_0.
    apply take_ge. lia.
Qed.
End Pages.

Section UploadOutcomes.
Variable UPLOAD_DIR : string.

Lemma create_image_metadata_fs env db fn ofn md w res w' :
  create_image_metadata env db fn ofn md w = (res, w') → fs w' = fs w.
Proof.
  unfold create_image_metadata, bind, Session_add, Session_commit, Session_refresh.
  destruct (flush _ _ _ _) as [[[e | keys] t'] seq'].
  - by intros [= <- <-].
  - destruct (select_by_id _ _); by intros [= <- <-].
Qed.

Lemma save_image_file_keeps env uf w r w' p :
  save_image_file UPLOAD_DIR env uf w = (r, w') →
  is_Some (fs w !! p) → is_Some (fs w' !! p).
Proof.
  unfold save_image_file, bind, try_except, open_wb, copyfileobj, ret, raise.
  generalize (OsPath.join UPLOAD_DIR (unique_filename env uf)) as path.
  generalize (unique_filename env uf) as name. intros name path.
  destruct (open_fault env); [by intros [= <- <-] |].
  destruct (write_fault env) as [[n msg] |]; intros [= <- <-];
    unfold set_fs; cbn [fs]; intros Hp;
    (destruct (decide (path = p)) as [-> | Hne];
     [rewrite lookup_insert_eq; eauto | by rewrite !lookup_insert_ne]).
Qed.


(** The files an upload request touches: at most the one it writes. *)
Lemma app_upload_fs env uf un loc w :
  let w' := snd (app UPLOAD_DIR env (POST_upload uf un loc) w) in
  (∀ p, p ≠ OsPath.join UPLOAD_DIR (unique_filename env uf) →
        fs w' !! p = fs w !! p)
  ∧ (∀ p, is_Some (fs w !! p) → is_Some (fs w' !! p)).
Proof.
  destruct (app_upload UPLOAD_DIR env uf un loc w) as (res & w1 & Hup & ->).
  cbn [snd fs set_sessions]. revert Hup.
  unfold upload_image_and_metadata, bind, try_except, raise, ret.
  destruct (save_image_file UPLOAD_DIR env uf (opened w)) as [[e | name] w0] eqn:Hs.
  - intros [= <- <-].
    destruct (save_image_file_frame _ _ _ _ _ _ Hs) as (_ & _ & _ & _ & Hfr).
    split; [exact Hfr | intros p; exact (save_image_file_keeps _ _ _ _ _ p Hs)].
  - cbv beta iota.
    destruct (create_image_metadata _ _ _ _ _ w0) as [[e | r] w2] eqn:Hc;
      apply create_image_metadata_fs in Hc; intros [= <- <-]; rewrite Hc;
      destruct (save_image_file_frame _ _ _ _ _ _ Hs) as (_ & _ & _ & _ & Hfr);
      (split; [exact Hfr | intros p; exact (save_image_file_keeps _ _ _ _ _ p Hs)]).
Qed.

(** How an upload request can end. *)
Lemma app_upload_outcome env uf un loc w :
  let response := fst (app UPLOAD_DIR env (POST_upload uf un loc) w) in
  let w' := snd (app UPLOAD_DIR env (POST_upload uf un loc) w) in
  let row := inserted_row env (id_seq w + 1) (unique_filename env uf)
               (upload_filename uf)
               {| create_uploader_name := un; create_location := loc |} in
  (response = {| status := 200; body := Record_body (from_attributes row) |}
   ∧ table w' = table w ++ [row] ∧ id_seq w' = id_seq w + 1
   ∧ (id_seq w + 1 ∉ id <$> table w)
   ∧ (unique_filename env uf ∉ filename <$> table w)
   ∧ fs w' !! OsPath.join UPLOAD_DIR (unique_filename env uf) = Some (file uf))
  ∨ (∃ detail, response = {| status := 500; body := Detail_body detail |}
     ∧ table w' = table w ∧ id_seq w ≤ id_seq w' ≤ id_seq w + 1).
Proof.
  destruct (app_upload UPLOAD_DIR env uf un loc w) as (res & w1 & Hup & ->).
  apply upload_image_and_metadata_inv in Hup as (_ & _ & Hres);
    [| apply pending_opened].
  cbn [fst snd table id_seq fs opened set_sessions] in *.
  destruct Hres as [(d & -> & Ht & Hq) | (-> & Ht & Hq & Hid & Hfn & Hfs)].
  - right. by exists d.
  - left. by split_and!.
Qed.
End UploadOutcomes.

Section RouteProperties.
Variable UPLOAD_DIR : string.

(** X1: the status codes of the routes: an upload answers 200 or 500, a
    lookup by id 200 or 404, the root route 200 with its welcome message,
    and the list route 200 when skip and limit are both from 0 to below
    2^63, and 500 when one of them is negative or 2^63 or more. *)
Theorem status_codes env request w :
  let response := fst (app UPLOAD_DIR env request w) in
  match request with
  | POST_upload _ _ _ => status response = 200 ∨ status response = 500
  | GET_images skip limit =>
      (status response = 200 ∨ status response = 500)
      ∧ (0 ≤ default 0 skip < 2 ^ 63 → 0 ≤ default 100 limit < 2 ^ 63 →
         status response = 200)
      ∧ (default 0 skip < 0 ∨ default 100 limit < 0
         ∨ 2 ^ 63 ≤ default 0 skip ∨ 2 ^ 63 ≤ default 100 limit →
         status response = 500)
  | GET_image _ => status response = 200 ∨ status response = 404
  | GET_root =>
      response = {| status := 200;
                    body := Message_body "Welcome to RealReview Backend MVP" |}
  end.
Proof.
  destruct request as [uf un loc | skip limit | image_id |]; cbv zeta.
  - destruct (app_upload_outcome UPLOAD_DIR env uf un loc w)
      as [(-> & _) | (d & -> & _)]; [by left | by right].
  - rewrite app_GET_images. cbn [fst]. split_and!.
    + unfold query_offset_limit. destruct (_ || _); [by right | by left].
    + intros Hs Hl. by rewrite query_offset_limit_page.
    + intros Hout. by rewrite query_offset_limit_out.
  - rewrite app_GET_image. cbn [fst].
    destruct (select_by_id _ _); [by left | by right].
  - done.
Qed.

(** X2: an upload is all or nothing for the table: it answers 200 exactly
    when it appended one row and 500 exactly when the table is as before;
    the row of a 200 answer is the one displayed, with the generated file
    name, the client's file name, the fields as sent, the next id and the
    clock, and the file of that name holds the upload. *)
Theorem upload_all_or_nothing env uf un loc w :
  let response := fst (app UPLOAD_DIR env (POST_upload uf un loc) w) in
  let w' := snd (app UPLOAD_DIR env (POST_upload uf un loc) w) in
  (status response = 200 ↔ length (table w') = S (length (table w)))
  ∧ (status response = 500 ↔ table w' = table w)
  ∧ (status response = 200 →
     ∃ row, body response = Record_body (from_attributes row)
            ∧ table w' = table w ++ [row]
            ∧ id row = id_seq w + 1
            ∧ filename row = unique_filename env uf
            ∧ original_filename row = upload_filename uf
            ∧ uploader_name row = un ∧ location row = loc
            ∧ upload_timestamp row = now env
            ∧ fs w' !! OsPath.join UPLOAD_DIR (filename row) = Some (file uf)).
Proof.
  cbv zeta.
  destruct (app_upload_outcome UPLOAD_DIR env uf un loc w)
    as [(-> & Ht & _ & _ & _ & Hfs) | (d & -> & Ht & _)];
    rewrite Ht; cbn [status body].
  - split_and!.
    + split; [intros _ | done]. rewrite length_app. cbn. lia.
    + split; [done |]. intros H. apply (f_equal length) in H.
      rewrite length_app in H. cbn in H. lia.
    + intros _. eexists. split; [reflexivity |]. by split_and!.
  - split_and!; [| done | done].
    split; [done | lia].
Qed.


(** X11: a request that is not an upload changes no file, no row and not
    the id sequence, and answers the same when it is repeated. *)
Theorem reads_write_nothing env request w :
  uses_upload request = false →
  let w' := snd (app UPLOAD_DIR env request w) in
  fs w' = fs w ∧ table w' = table w ∧ id_seq w' = id_seq w
  ∧ ∀ env', fst (app UPLOAD_DIR env' request w') = fst (app UPLOAD_DIR env request w).
Proof.
  destruct request as [uf un loc | skip limit | image_id |]; [done | | |];
    intros _; cbv zeta.
  - rewrite app_GET_images. cbn [fst snd]. split_and!; try done.
    intros env'. rewrite app_GET_images. cbn [fst].
    unfold query_offset_limit. by destruct (_ || _).
  - rewrite app_GET_image. cbn [fst snd]. split_and!; try done.
    intros env'. by rewrite app_GET_image.
  - done.
Qed.
End RouteProperties.

Section Invariants.
Variable UPLOAD_DIR : string.

Lemma serve_nil w : serve UPLOAD_DIR [] w = ([], w).
Proof. done. Qed.

Lemma app_fs_kept env request w p :
  is_Some (fs w !! p) → is_Some (fs (snd (app UPLOAD_DIR env request w)) !! p).
Proof.
  destruct request as [uf un loc | skip limit | image_id |].
  - apply app_upload_fs.
  - by rewrite app_GET_images.
  - by rewrite app_GET_image.
  - done.
Qed.

(** X12: no request removes a file: a path that holds a file holds one
    after any requests. *)
Theorem files_never_removed requests w p :
  is_Some (fs w !! p) → is_Some (fs (snd (serve UPLOAD_DIR requests w)) !! p).
Proof.
  revert w; induction requests as [|[env request] rest IH]; intros w Hp; [done |].
  rewrite serve_cons. by apply IH, app_fs_kept.
Qed.

Lemma app_rows_have_files env request w :
  rows_have_files UPLOAD_DIR w →
  rows_have_files UPLOAD_DIR (snd (app UPLOAD_DIR env request w)).
Proof.
  intros Hinv.
  destruct request as [uf un loc | skip limit | image_id |].
  - pose proof (app_upload_fs UPLOAD_DIR env uf un loc w) as [_ Hkeep].
    destruct (app_upload_outcome UPLOAD_DIR env uf un loc w)
      as [(_ & Ht & _ & _ & _ & Hfs) | (d & _ & Ht & _)];
      cbv zeta in *; intros r; rewrite Ht.
    + intros [Hr | ->%list_elem_of_singleton]%elem_of_app.
      * by apply Hkeep, Hinv.
      * cbn [filename inserted_row insert_row new_filename]. by rewrite Hfs.
    + intros Hr. by apply Hkeep, Hinv.
  - by rewrite app_GET_images.
  - by rewrite app_GET_image.
  - done.
Qed.

(** X13: when every record has a file under its stored name in the
    upload directory, that is so after any requests. *)
Theorem rows_keep_files requests w :
  rows_have_files UPLOAD_DIR w →
  rows_have_files UPLOAD_DIR (snd (serve UPLOAD_DIR requests w)).
Proof.
  revert w; induction requests as [|[env request] rest IH]; intros w Hw; [done |].
  rewrite serve_cons. by apply IH, app_rows_have_files.
Qed.

Lemma StronglySorted_lookup {A} (R : relation A) (l : list A) i j x y :
  StronglySorted R l → l !! i = Some x → l !! j = Some y → (i < j)%nat → R x y.
Proof.
  intros Hs Hi Hj Hlt. rewrite <- (list.take_drop j l) in Hs.
  eapply StronglySorted_app_1_elem_of; [exact Hs | |].
  - apply list_elem_of_lookup_2 with (i := i).
    rewrite lookup_take. by case_decide.
  - apply list_elem_of_lookup_2 with (i := 0%nat).
    rewrite lookup_drop. by rewrite Nat.add_0_r.
Qed.

Lemma table_step_ascending w w' : table_step w w' → ids_ascending w → ids_ascending w'.
Proof.
  intros Hstep [Hsorted Hseq].
  destruct Hstep as [Ht Hq | row Ht Hid Hq _ _]; split; rewrite Ht.
  - done.
  - eapply Forall_impl; [exact Hseq |]. intros r Hr. cbv beta in *. lia.
  - rewrite fmap_app. apply StronglySorted_app_2; [| done | repeat constructor].
    intros k1 k2 (r & -> & Hr)%list_elem_of_fmap_1 ->%list_elem_of_singleton.
    rewrite Forall_forall in Hseq. specialize (Hseq r Hr). lia.
  - apply Forall_app. split.
    + eapply Forall_impl; [exact Hseq |]. intros r Hr. cbv beta in *. lia.
    + apply Forall_singleton. lia.
Qed.

(** X15: the ids are handed out in growing order: when the ids grow
    along the table and stay below the sequence, they do so after any
    requests, so a record listed later has the larger id. *)
Theorem ids_stay_ascending requests w :
  ids_ascending w →
  let w' := snd (serve UPLOAD_DIR requests w) in
  ids_ascending w'
  ∧ ∀ i j r1 r2, table w' !! i = Some r1 → table w' !! j = Some r2 →
                 (i < j)%nat → id r1 < id r2.
Proof.
  intros Hw w'.
  assert (ids_ascending w') as Hw'.
  { subst w'. revert w Hw.
    induction requests as [|[env request] rest IH]; intros w Hw; [done |].
    rewrite serve_cons. apply IH.
    eapply table_step_ascending; [apply app_table_step | done]. }
  split; [done |]. destruct Hw' as [Hsorted _].
  intros i j r1 r2 Hi Hj Hlt.
  eapply (StronglySorted_lookup Z.lt (id <$> table w') i j); try done;
    rewrite list_lookup_fmap; [by rewrite Hi | by rewrite Hj].
Qed.

(** X14: the constraints of the table hold after any requests: no two
    records share an id or a stored file name. *)
Theorem constraints_kept requests w :
  wf w →
  let w' := snd (serve UPLOAD_DIR requests w) in
  NoDup (id <$> table w') ∧ NoDup (filename <$> table w')
  ∧ ∀ r1 r2, r1 ∈ table w' → r2 ∈ table w' →
             id r1 = id r2 ∨ filename r1 = filename r2 → r1 = r2.
Proof.
  intros Hw w'. destruct (serve_wf UPLOAD_DIR requests w Hw) as [Hids Hfns _].
  fold w' in Hids, Hfns. split_and!; [done | done |].
  intros r1 r2 [i1 H1]%list_elem_of_lookup [i2 H2]%list_elem_of_lookup [Heq | Heq].
  - assert (i1 = i2) as ->; [| congruence].
    eapply (proj1 (NoDup_alt (id <$> table w')) Hids);
      rewrite list_lookup_fmap; [by rewrite H1 | by rewrite H2, Heq].
  - assert (i1 = i2) as ->; [| congruence].
    eapply (proj1 (NoDup_alt (filename <$> table w')) Hfns);
      rewrite list_lookup_fmap; [by rewrite H1 | by rewrite H2, Heq].
Qed.
End Invariants.

Section RoundTrips.
Variable UPLOAD_DIR : string.

(** X5: what an upload answered with 200 is what GET /images/{id} answers
    for its id, after any requests in between. *)
Theorem upload_then_get env uf un loc w d :
  fst (app UPLOAD_DIR env (POST_upload uf un loc) w)
  = {| status := 200; body := Record_body d |} →
  ∀ requests env',
    fst (app UPLOAD_DIR env' (GET_image (display_id d))
           (snd (serve UPLOAD_DIR requests
                   (snd (app UPLOAD_DIR env (POST_upload uf un loc) w)))))
    = {| status := 200; body := Record_body d |}.
Proof.
  intros Hresp requests env'.
  destruct (app_upload_outcome UPLOAD_DIR env uf un loc w)
    as [(Hr & Ht & _ & Hid & _) | (detail & Hr & _)];
    cbv zeta in *; rewrite Hr in Hresp; [| done].
  injection Hresp as <-.
  rewrite app_GET_image. cbn [fst].
  destruct (serve_prefix UPLOAD_DIR requests
              (snd (app UPLOAD_DIR env (POST_upload uf un loc) w))) as [new ->].
  rewrite Ht.
  erewrite select_by_id_app; [reflexivity |].
  by apply select_by_id_last.
Qed.

(** X6: after an upload that answered 200, GET /images/ from the start
    with a limit above the number of records and below 2^63 answers the
    records there were, in their order, followed by the new one. *)
Theorem upload_then_list env uf un loc w d :
  fst (app UPLOAD_DIR env (POST_upload uf un loc) w)
  = {| status := 200; body := Record_body d |} →
  ∀ env' limit,
    Z.of_nat (length (table w)) < limit < 2 ^ 63 →
    fst (app UPLOAD_DIR env' (GET_images (Some 0) (Some limit))
           (snd (app UPLOAD_DIR env (POST_upload uf un loc) w)))
    = {| status := 200;
         body := List_body ((from_attributes <$> table w) ++ [d]) |}.
Proof.
  intros Hresp env' limit Hlimit.
  destruct (app_upload_outcome UPLOAD_DIR env uf un loc w)
    as [(Hr & Ht & _) | (detail & Hr & _)];
    cbv zeta in *; rewrite Hr in Hresp; [| done].
  injection Hresp as <-.
  rewrite app_GET_images. cbn [fst default from_option Datatypes.id].
  rewrite query_offset_limit_page by lia. cbn [fst respond].
  rewrite Ht. change (Z.to_nat 0) with 0%nat. rewrite drop_0.
  rewrite take_ge by (rewrite length_app; cbn; lia).
  by rewrite fmap_app.
Qed.

(** X4: an upload that draws the stored name of a record answers 500 and
    leaves the table alone, but has replaced the file of that record with
    its own content, since the file is written before the insert. *)
Theorem upload_name_taken env uf un loc w :
  open_fault env = None → write_fault env = None →
  unique_filename env uf ∈ filename <$> table w →
  let response := fst (app UPLOAD_DIR env (POST_upload uf un loc) w) in
  let w' := snd (app UPLOAD_DIR env (POST_upload uf un loc) w) in
  status response = 500
  ∧ table w' = table w
  ∧ ∃ r, r ∈ table w' ∧ filename r = unique_filename env uf
         ∧ fs w' !! OsPath.join UPLOAD_DIR (filename r) = Some (file uf).
Proof.
  intros Ho Hw Hin. cbv zeta.
  pose proof (save_image_file_ok UPLOAD_DIR env uf (opened w) Ho Hw) as Hs.
  destruct (app_upload_outcome UPLOAD_DIR env uf un loc w)
    as [(_ & _ & _ & _ & Hfn & _) | (detail & Hr & Ht & _)];
    cbv zeta in *; [done |].
  rewrite Hr, Ht. split_and!; [done | done |].
  apply list_elem_of_fmap_1 in Hin as (r & Hname & Hr').
  exists r. split_and!; [done | done |]. rewrite <- Hname.
  destruct (app_upload UPLOAD_DIR env uf un loc w) as (res & w1 & Hup & ->).
  cbn [snd fs set_sessions].
  revert Hup. unfold upload_image_and_metadata, bind, try_except, raise, ret.
  rewrite Hs.
  destruct (create_image_metadata _ _ _ _ _ _) as [[e | r0] w2] eqn:Hc;
    apply create_image_metadata_fs in Hc; intros [= <- <-]; rewrite Hc;
    unfold set_fs; cbn [fs]; apply lookup_insert_eq.
Qed.
End RoundTrips.

Section SessionsAndNames.
Variable UPLOAD_DIR : string.

Lemma app_session_counter env request w :
  session_counter (snd (app UPLOAD_DIR env request w))
  = if uses_db request then S (session_counter w) else session_counter w.
Proof.
  destruct request as [uf un loc | skip limit | image_id |]; cbn [uses_db].
  - destruct (app_upload UPLOAD_DIR env uf un loc w) as (res & w1 & Hup & ->).
    apply upload_image_and_metadata_inv in Hup as (Hc & _); [| apply pending_opened].
    cbn [snd session_counter set_sessions]. by rewrite Hc.
  - by rewrite app_GET_images.
  - by rewrite app_GET_image.
  - done.
Qed.

(** X16: every request that depends on [get_db] gets one session under a
    handle of its own, the root route none, and a sequence of requests
    that starts without open sessions ends without. *)
Theorem one_session_per_request requests w :
  let w' := snd (serve UPLOAD_DIR requests w) in
  session_counter w'
  = (session_counter w + length (List.filter (λ er, uses_db (snd er)) requests))%nat
  ∧ (sessions w = ∅ → sessions w' = ∅)
  ∧ (∀ env request, uses_db request = true →
       session_counter w' ≠ session_counter (snd (app UPLOAD_DIR env request w'))).
Proof.
  cbv zeta. split_and!.
  - revert w; induction requests as [|[env request] rest IH]; intros w.
    + cbn. lia.
    + rewrite serve_cons, IH, app_session_counter. cbn [List.filter snd].
      destruct (uses_db request); cbn [length]; lia.
  - intros Hempty. pose proof (serve_sessions UPLOAD_DIR requests w) as Hsub.
    rewrite Hempty in Hsub. apply map_eq. intros db.
    rewrite lookup_empty. apply eq_None_not_Some. intros [l Hl].
    pose proof (lookup_weaken _ _ _ _ Hl Hsub) as H.
    by rewrite lookup_empty in H.
  - intros env request Hdb. rewrite app_session_counter, Hdb. lia.
Qed.

Lemma from_last_suffix c s : ∃ pre, s = pre +:+ ExtSpec.from_last c s.
Proof.
  induction s as [|a s [pre IH]]; simpl; [by exists "" |].
  destruct (PyStr.contains c s).
  - exists (String a pre). rewrite append_cons. by f_equal.
  - destruct (Ascii.eqb a c); [by exists "" |].
    exists (String a s). by rewrite append_nil_r.
Qed.

Lemma from_last_shape c s :
  ExtSpec.from_last c s = ""
  ∨ ∃ e, ExtSpec.from_last c s = String c e ∧ PyStr.contains c e = false.
Proof.
  induction s as [|a s IH]; simpl; [by left |].
  destruct (PyStr.contains c s) eqn:Hs; [done |].
  destruct (Ascii.eqb_spec a c) as [-> | _]; [right; eauto | by left].
Qed.

(** X17: the extension is the end of the client's file name, and is
    empty or one dot followed by characters that are neither dots nor
    slashes. *)
Theorem file_extension_shape uf :
  (∃ root, upload_filename uf = root +:+ file_extension uf)
  ∧ (file_extension uf = ""
     ∨ ∃ e, file_extension uf = String "." e
            ∧ PyStr.contains "." e = false ∧ PyStr.contains "/" e = false).
Proof.
  pose proof (extension_no_sep (upload_filename uf)) as Hsep.
  fold (file_extension uf) in Hsep.
  assert (file_extension uf = ExtSpec.extension (upload_filename uf)) as Hext
    by apply splitext_extension.
  rewrite Hext in *. unfold ExtSpec.extension in *. split.
  - destruct (after_last_suffix "/" (upload_filename uf)) as [p1 H1].
    destruct (lstrip_suffix "." (ExtSpec.after_last "/" (upload_filename uf)))
      as [p2 H2].
    destruct (from_last_suffix "."
                (ExtSpec.lstrip "." (ExtSpec.after_last "/" (upload_filename uf))))
      as [p3 H3].
    exists (p1 +:+ p2 +:+ p3). rewrite !append_assoc, <- H3, <- H2. exact H1.
  - destruct (from_last_shape "."
                (ExtSpec.lstrip "." (ExtSpec.after_last "/" (upload_filename uf))))
      as [-> | (e & He & Hdot)]; [by left |].
    right. exists e. rewrite He in *. split_and!; [done | done |].
    cbn in Hsep. exact Hsep.
Qed.

(** X18: the stored name is the 36 characters of the UUID and the
    extension; a client's name shorter than that is never the stored
    name. *)
Theorem stored_name_length env uf :
  String.length (unique_filename env uf)
  = (36 + String.length (file_extension uf))%nat
  ∧ ((String.length (upload_filename uf) < 36)%nat →
     unique_filename env uf ≠ upload_filename uf).
Proof.
  assert (String.length (unique_filename env uf)
          = (36 + String.length (file_extension uf))%nat) as Hlen.
  { unfold unique_filename. by rewrite length_append, length_str. }
  split; [done |]. intros Hshort Heq. rewrite Heq in Hlen. lia.
Qed.
End SessionsAndNames.

Lemma elem_of_page {A} (l : list A) n m x :
  x ∈ take n (drop m l) → x ∈ l.
Proof.
  intros Hx. eapply elem_of_sublist; [exact Hx |].
  etrans; [apply sublist_take | apply sublist_drop].
Qed.

Section ListRoute.
Variable UPLOAD_DIR : string.

(** X7: for skip and limit from 0 to below 2^63, GET /images/ answers
    200 with the display of the page, at most [limit] records and 100 when
    no limit is given, each the display of a stored record, and with the
    empty list when nothing is stored. *)
Theorem list_route_page env skip limit w :
  0 ≤ default 0 skip < 2 ^ 63 → 0 ≤ default 100 limit < 2 ^ 63 →
  let response := fst (app UPLOAD_DIR env (GET_images skip limit) w) in
  response
  = {| status := 200;
       body := List_body
                 (from_attributes
                    <$> take (Z.to_nat (default 100 limit))
                          (drop (Z.to_nat (default 0 skip)) (table w))) |}
  ∧ Z.of_nat (length (listed response)) ≤ default 100 limit
  ∧ (∀ d, d ∈ listed response → ∃ r, r ∈ table w ∧ d = from_attributes r)
  ∧ (table w = [] → listed response = []).
Proof.
  intros Hs Hl. cbv zeta. rewrite app_GET_images. cbn [fst].
  rewrite query_offset_limit_page by done. cbn [fst respond].
  split_and!; [done | | |]; unfold listed; cbn [body].
  - rewrite length_fmap, list.length_take. lia.
  - intros d (r & -> & Hr)%list_elem_of_fmap_1. exists r. split; [| done].
    eapply elem_of_page; exact Hr.
  - intros ->. by rewrite drop_nil, take_nil.
Qed.
End ListRoute.

Section ListAndGet.

(** X10: a record that is listed is the record a lookup of its id finds,
    and a record a lookup finds is in every list from the start whose
    limit is at least the number of records and below 2^63. *)
Theorem listed_records_found db db' skip limit w page :
  wf w →
  get_images_metadata db skip limit w = (inr page, w) →
  (∀ r, r ∈ page → get_image_metadata db' (id r) w = (inr (Some r), w))
  ∧ (∀ key r limit',
       get_image_metadata db' key w = (inr (Some r), w) →
       Z.of_nat (length (table w)) ≤ limit' < 2 ^ 63 →
       ∃ full, get_images_metadata db 0 limit' w = (inr full, w) ∧ r ∈ full).
Proof.
  intros [Hids _ _]. unfold get_images_metadata, get_image_metadata, query_offset_limit.
  destruct (_ || _) eqn:Hneg; [done |]. intros [= <-]. split.
  - intros r Hr%elem_of_page. by rewrite select_by_id_unique.
  - intros key r limit' [= Hsel] Hlimit.
    apply select_by_id_Some in Hsel as [Hr _].
    fold (query_offset_limit 0 limit' w).
    rewrite query_offset_limit_page by lia.
    eexists. split; [reflexivity |].
    change (Z.to_nat 0) with 0%nat. rewrite drop_0, take_ge by lia. done.
Qed.
End ListAndGet.

Lemma sample_first_response :
  fst (app "./uploads" (fst sample_first) (snd sample_first) empty_world)
  = {| status := 200; body := Record_body sample_first_display |}.
Proof. vm_compute. reflexivity. Qed.

Lemma empty_rows_have_files : rows_have_files "./uploads" empty_world.
Proof. intros r Hr. inversion Hr. Qed.

Lemma empty_ids_ascending : ids_ascending empty_world.
Proof. split; cbn; constructor. Qed.

(** Pages of one and two records of the sample run. *)
Lemma pages_compose_witness :
  0 ≤ 0 ∧ 0 ≤ 1 ∧ 0 ≤ 2 ∧ 0 + 1 < 2 ^ 63 ∧ 1 + 2 < 2 ^ 63
  ∧ ∃ page1 page2,
      get_images_metadata 0%nat 0 1 sample_world = (inr page1, sample_world)
      ∧ get_images_metadata 0%nat (0 + 1) 2 sample_world = (inr page2, sample_world)
      ∧ get_images_metadata 0%nat 0 (1 + 2) sample_world
        = (inr (page1 ++ page2), sample_world).
Proof.
  split; [lia |]. split; [lia |]. split; [lia |]. split; [lia |]. split; [lia |].
  exact (pages_compose 0%nat 0 1 2 sample_world ltac:(lia) ltac:(lia) ltac:(lia)
           ltac:(lia) ltac:(lia)).
Defined.

(** The page of five records from the second on of the sample run. *)
Lemma page_contents_witness :
  0 ≤ 1 < 2 ^ 63 ∧ 0 ≤ 5 < 2 ^ 63
  ∧ ∃ page,
      get_images_metadata 0%nat 1 5 sample_world = (inr page, sample_world)
      ∧ Z.of_nat (length page)
        = Z.min 5 (Z.max 0 (Z.of_nat (length (table sample_world)) - 1)).
Proof.
  split; [lia |]. split; [lia |].
  destruct (page_contents 0%nat 1 5 sample_world ltac:(lia) ltac:(lia))
    as (page & Hpage & _ & Hlen & _).
  exists page. split; [exact Hpage | exact Hlen].
Defined.

(** The list route without parameters after the sample run. *)
Lemma list_route_page_witness :
  0 ≤ default 0 None < 2 ^ 63 ∧ 0 ≤ default 100 None < 2 ^ 63
  ∧ Z.of_nat (length (listed (fst (app "./uploads" (sample_env x09 2000)
                                     (GET_images None None) sample_world))))
    ≤ 100.
Proof.
  split; [cbn; lia |]. split; [cbn; lia |].
  exact (proj1 (proj2 (list_route_page "./uploads" (sample_env x09 2000) None None
                         sample_world ltac:(cbn; lia) ltac:(cbn; lia)))).
Defined.


(** A lookup of id 2 after the sample run. *)
Lemma reads_write_nothing_witness :
  uses_upload (GET_image 2) = false
  ∧ fs (snd (app "./uploads" (sample_env x09 2000) (GET_image 2) sample_world))
    = fs sample_world
  ∧ table (snd (app "./uploads" (sample_env x09 2000) (GET_image 2) sample_world))
    = table sample_world.
Proof.
  split; [reflexivity |].
  destruct (reads_write_nothing "./uploads" (sample_env x09 2000) (GET_image 2)
              sample_world eq_refl) as (Hfs & Ht & _).
  split; [exact Hfs | exact Ht].
Defined.

(** The file of the first upload through the rest of the sample run. *)
Lemma files_never_removed_witness :
  let path := "./uploads/00000000-0000-4000-8000-000000000000.jpg" in
  let w1 := snd (app "./uploads" (fst sample_first) (snd sample_first) empty_world) in
  is_Some (fs w1 !! path)
  ∧ is_Some (fs (snd (serve "./uploads" (tail sample_requests) w1)) !! path).
Proof.
  intros path w1.
  assert (is_Some (fs w1 !! path)) as Hfile by (vm_compute; eauto).
  split; [exact Hfile |].
  exact (files_never_removed "./uploads" (tail sample_requests) w1 path Hfile).
Defined.

(** The files of the records of the sample run. *)
Lemma rows_keep_files_witness :
  rows_have_files "./uploads" empty_world
  ∧ rows_have_files "./uploads" sample_world.
Proof.
  split; [exact empty_rows_have_files |].
  exact (rows_keep_files "./uploads" sample_requests empty_world empty_rows_have_files).
Defined.

(** The ids of the sample run. *)
Lemma ids_stay_ascending_witness :
  ids_ascending empty_world ∧ ids_ascending sample_world.
Proof.
  split; [exact empty_ids_ascending |].
  exact (proj1 (ids_stay_ascending "./uploads" sample_requests empty_world
                  empty_ids_ascending)).
Defined.

(** The ids and file names of the sample run. *)
Lemma constraints_kept_witness :
  wf empty_world
  ∧ NoDup (id <$> table sample_world)
  ∧ NoDup (filename <$> table sample_world).
Proof.
  split; [exact wf_empty |].
  destruct (constraints_kept "./uploads" sample_requests empty_world wf_empty)
    as (Hids & Hfns & _).
  split; [exact Hids | exact Hfns].
Defined.

(** The first upload of the sample run, looked up at its end. *)
Lemma upload_then_get_witness :
  let w1 := snd (app "./uploads" (fst sample_first) (snd sample_first) empty_world) in
  fst (app "./uploads" (fst sample_first) (snd sample_first) empty_world)
  = {| status := 200; body := Record_body sample_first_display |}
  ∧ fst (app "./uploads" (sample_env x09 2000) (GET_image 1)
           (snd (serve "./uploads" (tail sample_requests) w1)))
    = {| status := 200; body := Record_body sample_first_display |}.
Proof.
  intros w1. split; [exact sample_first_response |].
  exact (upload_then_get "./uploads" (fst sample_first)
           (sample_upload "cat.jpg" [x01; x02]) (Some "Ana") (Some "Lisbon")
           empty_world sample_first_display sample_first_response
           (tail sample_requests) (sample_env x09 2000)).
Defined.

(** The first upload of the sample run, listed right after. *)
Lemma upload_then_list_witness :
  let w1 := snd (app "./uploads" (fst sample_first) (snd sample_first) empty_world) in
  fst (app "./uploads" (fst sample_first) (snd sample_first) empty_world)
  = {| status := 200; body := Record_body sample_first_display |}
  ∧ Z.of_nat (length (table empty_world)) < 10 < 2 ^ 63
  ∧ fst (app "./uploads" (sample_env x09 2000) (GET_images (Some 0) (Some 10)) w1)
    = {| status := 200; body := List_body [sample_first_display] |}.
Proof.
  intros w1. split; [exact sample_first_response |].
  assert (Z.of_nat (length (table empty_world)) < 10 < 2 ^ 63) as Hlimit
    by (cbn; lia).
  split; [exact Hlimit |].
  exact (upload_then_list "./uploads" (fst sample_first)
           (sample_upload "cat.jpg" [x01; x02]) (Some "Ana") (Some "Lisbon")
           empty_world sample_first_display sample_first_response
           (sample_env x09 2000) 10 Hlimit).
Defined.

(** An upload after the sample run that draws the UUID of its first upload. *)
Lemma upload_name_taken_witness :
  let env := sample_env x00 2000 in
  let upload := sample_upload "dog.jpg" [x07] in
  open_fault env = None ∧ write_fault env = None
  ∧ (unique_filename env upload ∈ filename <$> table sample_world)
  ∧ status (fst (app "./uploads" env (POST_upload upload None None) sample_world)) = 500
  ∧ table (snd (app "./uploads" env (POST_upload upload None None) sample_world))
    = table sample_world.
Proof.
  intros env upload. split; [reflexivity |]. split; [reflexivity |].
  assert (unique_filename env upload ∈ filename <$> table sample_world) as Hin.
  { rewrite sample_table.
    assert (unique_filename env upload = "00000000-0000-4000-8000-000000000000.jpg")
      as -> by (vm_compute; reflexivity).
    apply list_elem_of_here. }
  split; [exact Hin |].
  destruct (upload_name_taken "./uploads" env upload None None sample_world
              eq_refl eq_refl Hin) as (Hstatus & Ht & _).
  split; [exact Hstatus | exact Ht].
Defined.

(** The second record of the sample run, listed and looked up. *)
Lemma listed_records_found_witness :
  wf sample_world
  ∧ get_images_metadata 0%nat 1 1 sample_world
    = (inr (take 1 (drop 1 sample_rows)), sample_world)
  ∧ ∀ r, r ∈ take 1 (drop 1 sample_rows) →
         get_image_metadata 0%nat (id r) sample_world = (inr (Some r), sample_world).
Proof.
  assert (get_images_metadata 0%nat 1 1 sample_world
          = (inr (take 1 (drop 1 sample_rows)), sample_world)) as Hpage.
  { unfold get_images_metadata. rewrite query_offset_limit_page by lia.
    by rewrite sample_table. }
  split; [exact sample_wf |]. split; [exact Hpage |].
  exact (proj1 (listed_records_found 0%nat 0%nat 1 1 sample_world
                  (take 1 (drop 1 sample_rows)) sample_wf Hpage)).
Defined.
